(** * The hub timer of [engine/core/core.py]

    A shallow embedding of [_async_create_timer] and of the three closures it
    defines ([schedule_tick], [fire_time_event], [stop_timer]), with the part
    of the hub they act on: the event bus, the event loop's delayed calls,
    the two clocks and the logger.

    Python floats are IEEE binary64 numbers; they are modelled by Rocq's
    primitive [float], which is the same format with the same rounding, so
    [1 - m / 10 ** 6] below is the very number Python computes. *)

From Stdlib Require Import ZArith QArith Qabs Floats Uint63 Lia Lqa.
From stdpp Require Import gmap strings list.

Local Open Scope Z_scope.

(** ** Data model *)

(** A UTC [datetime]: the whole seconds since the epoch and the [microsecond]
    field, which [datetime] keeps in [range(1000000)]. *)
Record Date := mkDate {
  epoch_second : Z;
  microsecond : Z;
}.

Definition valid_Date (d : Date) : Prop := 0 <= microsecond d < 1000000.

(** Values found in the [data] mapping of the timer's events. *)
Inductive Value :=
| VDate (d : Date)
| VFloat (f : float).

(** Modelled from the spec: the class [Context] is not part of the excerpt.
    Section 3 gives it as an immutable pair of an opaque unique [id] and an
    optional [parent_id]; tokens are drawn from a counter of the world, so two
    contexts are the same object exactly when they are equal. *)
Record Context := mkContext {
  context_id : N;
  parent_id : option N;
}.

Inductive EventOrigin := LOCAL | REMOTE.

(** Modelled from the spec: the class [Event] is not part of the excerpt.
    Section 3: type, data mapping, origin, time fired, context. *)
Record Event := mkEvent {
  event_type : string;
  data : gmap string Value;
  origin : EventOrigin;
  time_fired : Date;
  context : Context;
}.

(** Modelled from the spec: the constants of [homeassistant.const] are
    imported, not defined, by the excerpt; section 6 spells the event types
    and the two data keys. *)
Definition EVENT_TIME_CHANGED : string := "time_changed".
Definition EVENT_TIMER_OUT_OF_SYNC : string := "timer_out_of_sync".
Definition EVENT_HOMEASSISTANT_START : string := "homeassistant_start".
Definition EVENT_HOMEASSISTANT_STOP : string := "homeassistant_stop".
Definition ATTR_NOW : string := "now".
Definition ATTR_SECONDS : string := "seconds".

(** The two closures that [_async_create_timer] hands to the hub.  A closure
    is its code together with what it captured: [timer_context] is bound once
    and never assigned again, so it is captured by value; [handle] is a
    [nonlocal] cell that the closures share, it lives in the world below. *)
Inductive TimerCallback :=
| cb_fire_time_event (timer_context : Context).

Inductive ListenerCallback :=
| cb_stop_timer.

(** What [loop.call_later(delay, callback, *args)] returns: asyncio's
    [TimerHandle].  [th_done] is set when the loop has run the callback. *)
Record TimerHandle := mkTimerHandle {
  th_delay : float;
  th_callback : TimerCallback;
  th_args : float;
  th_cancelled : bool;
  th_done : bool;
}.

(** Handles are objects; one is named by its position in the list of all the
    handles the loop ever returned. *)
Abbreviation HandleId := nat.

Definition pending (th : TimerHandle) : bool :=
  negb (th_cancelled th) && negb (th_done th).

(** Modelled from the spec: listener registrations of the bus (section 3):
    an event type or the wildcard, a callback, and the one-shot flag. *)
Inductive EventKey :=
| key_type (ty : string)
| key_match_all.

Record Listener := mkListener {
  l_key : EventKey;
  l_callback : ListenerCallback;
  l_once : bool;
}.

(** The hub as the timer sees it: [hass.bus] (listeners, and the log of the
    events published through [async_fire], oldest first) and [hass.loop]
    (every handle [call_later] returned, in creation order). *)
Record HomeAssistant := mkHass {
  listeners : list Listener;
  fired : list Event;
  scheduled : list TimerHandle;
}.

(** The world a call runs in: the hub, the [nonlocal] cell [handle] of the
    timer (a hub creates its timer once, so there is one such cell; the first
    statement of [_async_create_timer] initialises it), the logger, and what
    the code reads from outside: the wall clock ([dt_util.utcnow]), the
    monotonic clock ([time.monotonic]) and the source of fresh context tokens.
    A clock is the sequence of the values its successive reads return, with
    the number of reads made so far. *)
Record World := mkWorld {
  hass : HomeAssistant;
  handle : option HandleId;
  logged : list string;
  utc_clock : nat -> Date;
  utc_reads : nat;
  mono_clock : nat -> float;
  mono_reads : nat;
  uuid_next : N;
}.

Definition with_hass (f : HomeAssistant -> HomeAssistant) (w : World) : World :=
  mkWorld (f (hass w)) (handle w) (logged w)
          (utc_clock w) (utc_reads w) (mono_clock w) (mono_reads w) (uuid_next w).

Definition with_handle (h : option HandleId) (w : World) : World :=
  mkWorld (hass w) h (logged w)
          (utc_clock w) (utc_reads w) (mono_clock w) (mono_reads w) (uuid_next w).

Definition with_logged (l : list string) (w : World) : World :=
  mkWorld (hass w) (handle w) l
          (utc_clock w) (utc_reads w) (mono_clock w) (mono_reads w) (uuid_next w).

Definition with_listeners (ls : list Listener) (h : HomeAssistant) : HomeAssistant :=
  mkHass ls (fired h) (scheduled h).

Definition with_fired (es : list Event) (h : HomeAssistant) : HomeAssistant :=
  mkHass (listeners h) es (scheduled h).

Definition with_scheduled (ts : list TimerHandle) (h : HomeAssistant) : HomeAssistant :=
  mkHass (listeners h) (fired h) ts.

(** ** Effects: state and exceptions *)

Inductive PyExn :=
| AttributeError (msg : string).

Definition M (A : Type) : Type := World -> PyExn + (A * World).

#[global] Instance M_ret : MRet M := fun A a w => inr (a, w).

#[global] Instance M_bind : MBind M := fun A B f m w =>
  match m w with
  | inl e => inl e
  | inr (a, w') => f a w'
  end.

Definition raise {A} (e : PyExn) : M A := fun _ => inl e.
Definition gets {A} (f : World -> A) : M A := fun w => inr (f w, w).
Definition modify (f : World -> World) : M unit := fun w => inr (tt, f w).

(** ** The operations the timer calls *)

(** [dt_util.utcnow()]: the next value of the wall clock. *)
Definition utcnow : M Date := fun w =>
  inr (utc_clock w (utc_reads w),
       mkWorld (hass w) (handle w) (logged w)
               (utc_clock w) (S (utc_reads w)) (mono_clock w) (mono_reads w) (uuid_next w)).

(** [time.monotonic()]: the next value of the monotonic clock. *)
Definition monotonic : M float := fun w =>
  inr (mono_clock w (mono_reads w),
       mkWorld (hass w) (handle w) (logged w)
               (utc_clock w) (utc_reads w) (mono_clock w) (S (mono_reads w)) (uuid_next w)).

(** Modelled from the spec: [Context()] mints a root context with a fresh
    token and no parent (section 4.4). *)
Definition Context_new : M Context := fun w =>
  inr (mkContext (uuid_next w) None,
       mkWorld (hass w) (handle w) (logged w)
               (utc_clock w) (utc_reads w) (mono_clock w) (mono_reads w) (N.succ (uuid_next w))).

(** [hass.loop.call_later(delay, callback, *args)]: a new handle, not
    cancelled, not yet run, is returned. *)
Definition call_later (delay : float) (cb : TimerCallback) (arg : float) : M HandleId :=
  fun w =>
    inr (length (scheduled (hass w)),
         with_hass (fun h => with_scheduled
                      (scheduled h ++ [mkTimerHandle delay cb arg false false]) h) w).

Definition set_cancelled (th : TimerHandle) : TimerHandle :=
  mkTimerHandle (th_delay th) (th_callback th) (th_args th) true (th_done th).

Definition set_done (th : TimerHandle) : TimerHandle :=
  mkTimerHandle (th_delay th) (th_callback th) (th_args th) (th_cancelled th) true.

(** [TimerHandle.cancel()]. *)
Definition TimerHandle_cancel (i : HandleId) : M unit :=
  modify (with_hass (fun h => with_scheduled (alter set_cancelled i (scheduled h)) h)).

(** The method call [handle.cancel()] on a variable that holds either a
    handle or [None]: on [None] the attribute lookup raises. *)
Definition method_cancel (h : option HandleId) : M unit :=
  match h with
  | Some i => TimerHandle_cancel i
  | None => raise (AttributeError "'NoneType' object has no attribute 'cancel'")
  end.

(** Modelled from the spec: [hass.bus.async_fire] is not part of the excerpt.
    Section 4.1: publishing constructs the event (origin [LOCAL] by default)
    and hands it to the scheduler; the listeners run later, as units of work
    of their own (see [bus_dispatch]). *)
Definition async_fire (ty : string) (d : gmap string Value)
    (time_fired : Date) (ctx : Context) : M unit :=
  modify (with_hass (fun h => with_fired (fired h ++ [mkEvent ty d LOCAL time_fired ctx]) h)).

(** Modelled from the spec: [hass.bus.async_listen_once] is not part of the
    excerpt.  Section 4.1: a registration with [once] set. *)
Definition async_listen_once (ty : string) (cb : ListenerCallback) : M unit :=
  modify (with_hass (fun h => with_listeners (listeners h ++ [mkListener (key_type ty) cb true]) h)).

(** [_LOGGER.info(msg)]. *)
Definition logger_info (msg : string) : M unit :=
  modify (fun w => with_logged (logged w ++ [msg]) w).

(** [a / b] on two Python ints ("true division"): the binary64 number nearest
    to the quotient.  Both operands are natural numbers below [2 ^ 53] here
    ([now.microsecond] and [10 ** 6]), so each converts to a float exactly and
    the float division rounds once. *)
Definition int_to_float (z : Z) : float := of_uint63 (Uint63.of_Z z).

Definition int_truediv (a b : Z) : float :=
  (int_to_float a / int_to_float b)%float.

(** ** The source: [_async_create_timer] and its closures *)

(** [slp_seconds = 1 - (now.microsecond / 10 ** 6)] *)
Definition slp_seconds (now : Date) : float :=
  (1 - int_truediv (microsecond now) (10 ^ 6))%float.

Definition schedule_tick (timer_context : Context) (now : Date) : M unit :=
  let slp := slp_seconds now in
  m ← monotonic;
  let target := (m + slp)%float in
  h ← call_later slp (cb_fire_time_event timer_context) target;
  modify (with_handle (Some h)).

Definition fire_time_event (timer_context : Context) (target : float) : M unit :=
  now ← utcnow;
  async_fire EVENT_TIME_CHANGED {[ ATTR_NOW := VDate now ]} now timer_context;;
  m ← monotonic;
  let late := (m - target)%float in
  (if (1 <? late)%float
   then async_fire EVENT_TIMER_OUT_OF_SYNC {[ ATTR_SECONDS := VFloat late ]}
                   now timer_context
   else mret tt);;
  schedule_tick timer_context now.

Definition stop_timer (_ : Event) : M unit :=
  h ← gets handle;
  if decide (h ≠ None) then method_cancel h else mret tt.

Definition _async_create_timer : M unit :=
  modify (with_handle None);;
  timer_context ← Context_new;
  async_listen_once EVENT_HOMEASSISTANT_STOP cb_stop_timer;;
  logger_info "Timer:starting";;
  now ← utcnow;
  schedule_tick timer_context now.

(** ** The scheduler: how the hub calls the closures back *)

Definition invoke_timer (cb : TimerCallback) (arg : float) : M unit :=
  match cb with
  | cb_fire_time_event timer_context => fire_time_event timer_context arg
  end.

Definition invoke_listener (cb : ListenerCallback) (ev : Event) : M unit :=
  match cb with
  | cb_stop_timer => stop_timer ev
  end.

(** The event loop reaches the deadline of handle [i]: a handle that was
    cancelled, or that already ran, is skipped; otherwise its callback is
    called with the arguments given to [call_later]. *)
Definition loop_run_handle (i : HandleId) : M unit :=
  ts ← gets (fun w => scheduled (hass w));
  match ts !! i with
  | Some th =>
      if pending th
      then modify (with_hass (fun h =>
                     with_scheduled (alter set_done i (scheduled h)) h));;
           invoke_timer (th_callback th) (th_args th)
      else mret tt
  | None => mret tt
  end.

Definition listens_exactly (ty : string) (l : Listener) : bool :=
  match l_key l with
  | key_type t => bool_decide (t = ty)
  | key_match_all => false
  end.

Definition listens_to_all (l : Listener) : bool :=
  match l_key l with
  | key_type _ => false
  | key_match_all => true
  end.

Definition listens_to (ty : string) (l : Listener) : bool :=
  listens_exactly ty l || listens_to_all l.

Fixpoint for_each {A} (f : A -> M unit) (l : list A) : M unit :=
  match l with
  | [] => mret tt
  | a :: l' => f a;; for_each f l'
  end.

(** Modelled from the spec: the delivery of a published event to its
    listeners is not part of the excerpt.  Section 4.1: the listeners of the
    exact type run first, then the wildcard ones, each group in registration
    order; a [once] listener is removed before its callback executes. *)
Definition bus_dispatch (ev : Event) : M unit :=
  ls ← gets (fun w => listeners (hass w));
  let ty := event_type ev in
  modify (with_hass (with_listeners
            (List.filter (fun l => negb (listens_to ty l && l_once l)) ls)));;
  for_each (fun l => invoke_listener (l_callback l) ev)
           (List.filter (listens_exactly ty) ls ++ List.filter listens_to_all ls).

(** What can happen to a hub once its timer exists. *)
Inductive Action :=
| LoopRuns (i : HandleId)
| BusDelivers (ev : Event).

Definition step (a : Action) : M unit :=
  match a with
  | LoopRuns i => loop_run_handle i
  | BusDelivers ev => bus_dispatch ev
  end.

Fixpoint run (acts : list Action) : M unit :=
  match acts with
  | [] => mret tt
  | a :: acts' => step a;; run acts'
  end.

(** ** Observations used by the statements *)

Definition time_changed_event (ctx : Context) (now : Date) : Event :=
  mkEvent EVENT_TIME_CHANGED {[ ATTR_NOW := VDate now ]} LOCAL now ctx.

Definition out_of_sync_event (ctx : Context) (now : Date) (late : float) : Event :=
  mkEvent EVENT_TIMER_OUT_OF_SYNC {[ ATTR_SECONDS := VFloat late ]} LOCAL now ctx.

(** The events of one wake-up that captured wall-clock time [now] and measured
    lateness [late]. *)
Definition tick_events (ctx : Context) (now : Date) (late : float) : list Event :=
  time_changed_event ctx now ::
  (if (1 <? late)%float then [out_of_sync_event ctx now late] else []).

(** The handle a call of [schedule_tick] creates. *)
Definition tick_handle (ctx : Context) (now : Date) (mono : float) : TimerHandle :=
  mkTimerHandle (slp_seconds now) (cb_fire_time_event ctx)
                (mono + slp_seconds now)%float false false.

Definition next_utc (w : World) : Date := utc_clock w (utc_reads w).
Definition next_mono (w : World) : float := mono_clock w (mono_reads w).
Definition next_mono2 (w : World) : float := mono_clock w (S (mono_reads w)).

(** The lateness a wake-up with argument [target] measures in world [w]. *)
Definition lateness (w : World) (target : float) : float :=
  (next_mono w - target)%float.

(** ** Runs: what the statements about whole runs speak of *)

Definition cb_context (cb : TimerCallback) : Context :=
  match cb with
  | cb_fire_time_event timer_context => timer_context
  end.

(** What one wake-up observed: the context of the closure that ran, the
    wall-clock time it captured and the lateness it measured. *)
Record Tick := mkTick {
  tick_context : Context;
  tick_now : Date;
  tick_late : float;
}.

Definition events_of_tick (t : Tick) : list Event :=
  tick_events (tick_context t) (tick_now t) (tick_late t).

(** The effect of [stop_timer] on the world. *)
Definition cancel_handle (w : World) : World :=
  match handle w with
  | Some i => with_hass (fun h =>
                with_scheduled (alter set_cancelled i (scheduled h)) h) w
  | None => w
  end.

Definition mark_done (i : HandleId) (w : World) : World :=
  with_hass (fun h => with_scheduled (alter set_done i (scheduled h)) h) w.

Definition not_pending (th : TimerHandle) : Prop := pending th = false.

(** Every handle still to run belongs to a closure whose context satisfies [P]. *)
Definition handles_ok (P : Context -> Prop) (w : World) : Prop :=
  Forall (fun th => pending th = true -> P (cb_context (th_callback th)))
         (scheduled (hass w)).

Definition stop_listener : Listener :=
  mkListener (key_type EVENT_HOMEASSISTANT_STOP) cb_stop_timer true.

(** The cell [handle] names the handle scheduled last, and no older handle is
    still to run. *)
Definition handle_is_last (w : World) : Prop :=
  exists ts th,
    scheduled (hass w) = ts ++ [th] /\
    handle w = Some (length ts) /\
    Forall not_pending ts.

(** Either the one-shot stop listener is still registered, or the timer has
    been stopped: no handle is left to run. *)
Definition stop_armed (w : World) : Prop :=
  stop_listener ∈ listeners (hass w) \/ Forall not_pending (scheduled (hass w)).

Definition is_time_changed (e : Event) : bool :=
  bool_decide (event_type e = EVENT_TIME_CHANGED).

Definition is_out_of_sync (e : Event) : bool :=
  bool_decide (event_type e = EVENT_TIMER_OUT_OF_SYNC).

(** ** Floats as numbers *)

(** The rational a finite binary64 number stands for: [m * 2 ^ e], signed. *)
Definition SF_value (sf : spec_float) : option Q :=
  match sf with
  | S754_zero _ => Some 0%Q
  | S754_finite s m (Zneg k) => Some (cond_Zopp s (Zpos m) # 2 ^ k)
  | S754_finite s m e => Some (inject_Z (cond_Zopp s (Zpos m) * 2 ^ e))
  | S754_infinity _ | S754_nan => None
  end.

Definition float_value (f : float) : option Q := SF_value (Prim2SF f).

(** [lo <= x <= hi], as Python compares floats. *)
Definition within (lo hi x : float) : bool := ((lo <=? x) && (x <=? hi))%float.

#[local] Set Warnings "-inexact-float".

(** "About 1.3 seconds" and "about 0.3 seconds": within a tenth of a second. *)
Definition about_1_3 (x : float) : bool := within 1.2 1.4 x.
Definition about_0_3 (x : float) : bool := within 0.2 0.4 x.

(** ** An exhaustive check of the sleep delay

    [now.microsecond] has a million possible values; the delay is computed
    for each of them on machine integers and floats, and compared with
    [1 - m / 10 ** 6] in exact integer arithmetic. *)

(** [p] holds of [base], [base + 1], ..., [base + n - 1]. *)
Fixpoint all_from (n : positive) (base : int) (p : int -> bool) : bool :=
  match n with
  | xH => p base
  | xO n' => all_from n' base p && all_from n' (base + of_pos n')%uint63 p
  | xI n' =>
      p base && all_from n' (base + 1)%uint63 p
      && all_from n' (base + 1 + of_pos n')%uint63 p
  end.

(** [slp_seconds] when [now.microsecond] is the machine integer [i]. *)
Definition slp_of_int (i : int) : float := (1 - of_uint63 i / 1000000)%float.

(** A float with 53-bit mantissa [M] and shifted exponent [se] stands for
    [M * 2 ^ (se - 2154)].  With [s = 2106 - se], the check compares
    [floor (M * 15625 / 2 ^ s)] with [(10 ^ 6 - i) * 2 ^ 42]: they differ by
    at most 487 when the float is within [2 ^ -53] of [1 - i / 10 ^ 6].  No
    operation overflows 63 bits. *)
Definition mantissa_close (M se i : int) : bool :=
  ((4503599627370496 <=? M) && (M <? 9007199254740992) &&
   (2081 <=? se) && (se <=? 2102) &&
   let s := 2106 - se in
   let X := (M >> s) * 15625 + (((M mod (1 << s)) * 15625) >> s) in
   let Y := (1000000 - i) << 42 in
   ((if X <=? Y then Y - X else X - Y) <=? 487))%uint63.

Definition delay_check (i : int) : bool :=
  let d := slp_of_int i in
  (0 <? d)%float && (d <=? 1)%float &&
  negb (PrimFloat.is_nan d) && negb (PrimFloat.is_zero d) &&
  negb (PrimFloat.is_infinity d) && negb (PrimFloat.get_sign d) &&
  let (r, se) := frshiftexp d in
  mantissa_close (normfr_mantissa r) se i.

(** ** Concrete worlds for the examples *)

(** Nothing registered, nothing scheduled; a wall clock that reads
    03:04:05.333333 and then advances by a second at each read, a monotonic
    clock that starts at 100 and advances by a second at each read. *)
Definition quiet_world : World :=
  mkWorld (mkHass [] [] []) None []
          (fun n => mkDate (1546225445 + Z.of_nat n) 333333) 0
          (fun n => int_to_float (100 + Z.of_nat n)) 0
          0%N.

(** The scenario of a late tick: the wake-up was due at monotonic time 100,
    the clock reads 101.3 when it runs, the wall clock reads [late_T]. *)
Definition late_T : Date := mkDate 1546225448 200000.

Definition late_world : World :=
  mkWorld (mkHass [] [] []) None []
          (fun _ => late_T) 0
          (fun _ => 101.3%float) 0
          1%N.

Definition late_target : float := 100%float.

(** The event the hub publishes when it stops. *)
Definition hub_stop_event : Event :=
  mkEvent EVENT_HOMEASSISTANT_STOP ∅ LOCAL late_T (mkContext 7 None).

(** The world a call leaves, if it returns. *)
Definition world_after (r : PyExn + (unit * World)) : option World :=
  match r with
  | inr (_, w) => Some w
  | inl _ => None
  end.

(** The types of the events published so far and the state of each handle,
    for the examples. *)
Definition fired_types (w : World) : list string :=
  map event_type (fired (hass w)).

Definition handle_states (w : World) : list (bool * bool) :=
  map (fun th => (th_cancelled th, th_done th)) (scheduled (hass w)).

(** ** The trace of a timer

    What a timer created in world [w0] does is fixed by the two clocks: the
    call of [_async_create_timer] reads each clock once, every wake-up reads
    the wall clock once and the monotonic clock twice. *)

(** The handle number [j] the timer schedules (number 0 by
    [_async_create_timer], number [j + 1] by wake-up number [j]), as
    [call_later] returns it. *)
Definition sched_handle (ctx : Context) (w0 : World) (j : nat) : TimerHandle :=
  tick_handle ctx (utc_clock w0 (utc_reads w0 + j))
              (mono_clock w0 (mono_reads w0 + 2 * j)).

(** What wake-up number [k] observes: the next reading of the wall clock, and
    the next reading of the monotonic clock less the target of handle [k]. *)
Definition nth_tick (ctx : Context) (w0 : World) (k : nat) : Tick :=
  mkTick ctx (utc_clock w0 (utc_reads w0 + S k))
         (mono_clock w0 (mono_reads w0 + S (2 * k))
          - th_args (sched_handle ctx w0 k))%float.

Definition ticks_of (ctx : Context) (w0 : World) (n : nat) : list Tick :=
  map (nth_tick ctx w0) (seq 0 n).

(** Two handles that stand for the same call of [call_later]. *)
Definition same_call (h h' : TimerHandle) : Prop :=
  th_delay h = th_delay h' /\
  th_callback h = th_callback h' /\
  th_args h = th_args h'.

(** The world of a timer created in [w0], after [k] of its wake-ups ran. *)
Record timer_after (ctx : Context) (w0 : World) (k : nat) (w : World) : Prop :=
  mk_timer_after {
  ta_utc_clock : utc_clock w = utc_clock w0;
  ta_mono_clock : mono_clock w = mono_clock w0;
  ta_utc_reads : utc_reads w = (utc_reads w0 + S k)%nat;
  ta_mono_reads : mono_reads w = (mono_reads w0 + S (2 * k))%nat;
  ta_logged : logged w = logged w0 ++ ["Timer:starting"];
  ta_uuid : uuid_next w = N.succ (uuid_next w0);
  ta_fired :
    fired (hass w) = fired (hass w0) ++ flat_map events_of_tick (ticks_of ctx w0 k);
  ta_scheduled :
    exists olds th,
      scheduled (hass w) = scheduled (hass w0) ++ olds ++ [th] /\
      handle w = Some (length (scheduled (hass w0) ++ olds)) /\
      Forall2 (fun j h => same_call h (sched_handle ctx w0 j) /\ th_done h = true)
              (seq 0 k) olds /\
      same_call th (sched_handle ctx w0 k) /\
      th_done th = false;
}.

Definition is_loop_run (a : Action) : bool :=
  match a with
  | LoopRuns _ => true
  | BusDelivers _ => false
  end.

(** Whether action [a], taken in world [w], is a wake-up: the loop reaches a
    handle that is neither cancelled nor already run, and calls its callback. *)
Definition wakes (a : Action) (w : World) : bool :=
  match a with
  | LoopRuns i =>
      match scheduled (hass w) !! i with
      | Some th => pending th
      | None => false
      end
  | BusDelivers _ => false
  end.

(** The number of wake-ups that run when the hub takes the actions [acts]
    from world [w]. *)
Fixpoint wakeups (acts : list Action) (w : World) : nat :=
  match acts with
  | [] => 0
  | a :: acts' =>
      (if wakes a w then 1 else 0) +
      match step a w with
      | inr (_, w') => wakeups acts' w'
      | inl _ => 0
      end
  end%nat.

(** The handles of [w2] that were scheduled after world [w] and that the
    loop has run. *)
Definition ran_since (w w2 : World) : list TimerHandle :=
  List.filter th_done (drop (length (scheduled (hass w))) (scheduled (hass w2))).

(** A world whose wall clock reads one microsecond later within the second
    than that of [quiet_world]. *)
Definition later_world : World :=
  mkWorld (mkHass [] [] []) None []
          (fun n => mkDate (1546225445 + Z.of_nat n) 333334) 0
          (fun n => int_to_float (100 + Z.of_nat n)) 0
          0%N.

(** A world where a tick is exactly one second late: the monotonic clock
    reads 100, the wake-up was due at 99. *)
Definition on_the_second_target : float := 99%float.

(** Unfolds the monad of effects down to functions on worlds. *)
Ltac unfold_M := unfold mbind, M_bind, mret, M_ret, gets, modify.

(** * Lemmas *)

(** ** Closed forms of the closures *)

Lemma schedule_tick_eq ctx now w :
  schedule_tick ctx now w =
  inr (tt, mkWorld
             (mkHass (listeners (hass w)) (fired (hass w))
                     (scheduled (hass w) ++ [tick_handle ctx now (next_mono w)]))
             (Some (length (scheduled (hass w)))) (logged w)
             (utc_clock w) (utc_reads w) (mono_clock w) (S (mono_reads w))
             (uuid_next w)).
Proof. reflexivity. Qed.

Lemma fire_time_event_eq ctx target w :
  fire_time_event ctx target w =
  inr (tt, mkWorld
             (mkHass (listeners (hass w))
                     (fired (hass w) ++ tick_events ctx (next_utc w) (lateness w target))
                     (scheduled (hass w) ++ [tick_handle ctx (next_utc w) (next_mono2 w)]))
             (Some (length (scheduled (hass w)))) (logged w)
             (utc_clock w) (S (utc_reads w)) (mono_clock w) (S (S (mono_reads w)))
             (uuid_next w)).
Proof.
  unfold fire_time_event, tick_events, lateness, next_mono, next_utc.
  unfold utcnow, monotonic, async_fire. unfold_M.
  cbn -[PrimFloat.ltb PrimFloat.sub slp_seconds].
  destruct (1 <? mono_clock w (mono_reads w) - target)%float;
    rewrite schedule_tick_eq; unfold next_mono, next_mono2, with_hass, with_fired;
    cbn -[PrimFloat.sub slp_seconds tick_handle]; rewrite <- ?app_assoc; reflexivity.
Qed.

Lemma stop_timer_eq ev w : stop_timer ev w = inr (tt, cancel_handle w).
Proof.
  unfold stop_timer, cancel_handle. unfold_M. destruct (handle w); reflexivity.
Qed.

Lemma _async_create_timer_eq w :
  _async_create_timer w =
  inr (tt, mkWorld
             (mkHass (listeners (hass w) ++ [stop_listener])
                     (fired (hass w))
                     (scheduled (hass w) ++
                        [tick_handle (mkContext (uuid_next w) None)
                                     (next_utc w) (next_mono w)]))
             (Some (length (scheduled (hass w))))
             (logged w ++ ["Timer:starting"])
             (utc_clock w) (S (utc_reads w)) (mono_clock w) (S (mono_reads w))
             (N.succ (uuid_next w))).
Proof. reflexivity. Qed.

Lemma loop_run_handle_eq i w :
  loop_run_handle i w =
  match scheduled (hass w) !! i with
  | Some th =>
      if pending th
      then fire_time_event (cb_context (th_callback th)) (th_args th) (mark_done i w)
      else inr (tt, w)
  | None => inr (tt, w)
  end.
Proof.
  unfold loop_run_handle. unfold_M.
  destruct (scheduled (hass w) !! i) as [th|]; [|reflexivity].
  destruct (pending th); [|reflexivity].
  destruct (th_callback th); reflexivity.
Qed.

Lemma cancel_handle_idem w : cancel_handle (cancel_handle w) = cancel_handle w.
Proof.
  unfold cancel_handle. destruct (handle w) as [i|] eqn:H; cbn; rewrite ?H; [|reflexivity].
  unfold with_hass, with_scheduled; cbn. do 2 f_equal.
  rewrite list_alter_alter_eq. apply list_alter_ext; [|reflexivity].
  intros; reflexivity.
Qed.

Lemma for_each_stop_timer ev (ls : list Listener) w :
  for_each (fun l => invoke_listener (l_callback l) ev) ls w =
  inr (tt, match ls with [] => w | _ :: _ => cancel_handle w end).
Proof.
  revert w. induction ls as [|l ls IH]; intros w; [reflexivity|].
  cbn [for_each]. unfold mbind, M_bind.
  destruct (l_callback l). cbn [invoke_listener].
  rewrite stop_timer_eq, IH.
  destruct ls; [reflexivity|]. rewrite cancel_handle_idem. reflexivity.
Qed.

Lemma bus_dispatch_eq ev w :
  bus_dispatch ev w =
  let ty := event_type ev in
  let w1 := with_hass (with_listeners
              (List.filter (fun l => negb (listens_to ty l && l_once l))
                           (listeners (hass w)))) w in
  inr (tt, match List.filter (listens_exactly ty) (listeners (hass w)) ++
                 List.filter listens_to_all (listeners (hass w)) with
           | [] => w1
           | _ :: _ => cancel_handle w1
           end).
Proof.
  unfold bus_dispatch. unfold_M. rewrite for_each_stop_timer. reflexivity.
Qed.

(** ** The events of a tick *)

Lemma tick_events_time_changed ctx now late :
  List.filter is_time_changed (tick_events ctx now late) = [time_changed_event ctx now].
Proof. unfold tick_events. destruct (1 <? late)%float; reflexivity. Qed.

Lemma tick_events_inv ctx now late e :
  e ∈ tick_events ctx now late ->
  e = time_changed_event ctx now \/
  ((1 <? late)%float = true /\ e = out_of_sync_event ctx now late).
Proof.
  unfold tick_events. intros He. apply elem_of_cons in He as [He|He]; [left; exact He|].
  right. destruct (1 <? late)%float; [|inversion He].
  apply list_elem_of_singleton in He. auto.
Qed.

Lemma flat_map_tick_inv (ticks : list Tick) e :
  e ∈ flat_map events_of_tick ticks ->
  exists t, t ∈ ticks /\ e ∈ events_of_tick t.
Proof.
  intros He. apply list_elem_of_In, in_flat_map in He as (t & Ht & He).
  exists t. split; apply list_elem_of_In; assumption.
Qed.

(** ** Runs: the contexts of the ticks *)

Section Runs.

Variable P : Context -> Prop.

Lemma handles_ok_cancel w : handles_ok P w -> handles_ok P (cancel_handle w).
Proof.
  unfold handles_ok, cancel_handle. intros H.
  destruct (handle w) as [i|]; [|exact H]. cbn.
  apply Forall_alter; [exact H|]. intros th _ _. discriminate.
Qed.

Lemma step_ticks a w :
  handles_ok P w ->
  exists w' ticks,
    step a w = inr (tt, w') /\
    handles_ok P w' /\
    fired (hass w') = fired (hass w) ++ flat_map events_of_tick ticks /\
    Forall (fun t => P (tick_context t)) ticks /\
    uuid_next w' = uuid_next w.
Proof.
  intros Hok. destruct a as [i|ev]; cbn [step].
  - rewrite loop_run_handle_eq.
    destruct (scheduled (hass w) !! i) as [th|] eqn:Hi;
      [|exists w, []; rewrite app_nil_r; repeat split; auto].
    destruct (pending th) eqn:Hp;
      [|exists w, []; rewrite app_nil_r; repeat split; auto].
    rewrite fire_time_event_eq.
    assert (HP : P (cb_context (th_callback th))).
    { unfold handles_ok in Hok. rewrite Forall_lookup in Hok. exact (Hok i th Hi Hp). }
    eexists _, [mkTick (cb_context (th_callback th)) (next_utc (mark_done i w))
                       (lateness (mark_done i w) (th_args th))].
    split; [reflexivity|]. cbn -[tick_events tick_handle].
    rewrite app_nil_r. repeat split; auto.
    unfold handles_ok. cbn -[tick_handle]. apply Forall_app. split.
    + apply Forall_alter; [exact Hok|]. intros th' _ _.
      unfold pending; cbn. destruct (th_cancelled th'); discriminate.
    + constructor; [|constructor]. intros _. exact HP.
  - rewrite bus_dispatch_eq. cbn zeta.
    eexists _, []. split; [reflexivity|]. rewrite app_nil_r.
    destruct (_ ++ _); [|split; [apply handles_ok_cancel|]]; repeat split; auto.
    + unfold cancel_handle. cbn. destruct (handle w); reflexivity.
    + unfold cancel_handle. cbn. destruct (handle w); reflexivity.
Qed.

Lemma run_ticks acts : forall w,
  handles_ok P w ->
  exists w' ticks,
    run acts w = inr (tt, w') /\
    handles_ok P w' /\
    fired (hass w') = fired (hass w) ++ flat_map events_of_tick ticks /\
    Forall (fun t => P (tick_context t)) ticks /\
    uuid_next w' = uuid_next w.
Proof.
  induction acts as [|a acts IH]; intros w Hok.
  - exists w, []. rewrite app_nil_r. repeat split; auto.
  - destruct (step_ticks a w Hok) as (w1 & t1 & E1 & Hok1 & F1 & P1 & U1).
    destruct (IH w1 Hok1) as (w2 & t2 & E2 & Hok2 & F2 & P2 & U2).
    exists w2, (t1 ++ t2). cbn [run]. unfold mbind, M_bind. rewrite E1.
    split; [exact E2|]. split; [exact Hok2|].
    split; [|split; [apply Forall_app; auto | congruence]].
    rewrite F2, F1, flat_map_app, app_assoc. reflexivity.
Qed.

End Runs.

Lemma handles_ok_created w :
  Forall not_pending (scheduled (hass w)) ->
  forall w1, _async_create_timer w = inr (tt, w1) ->
  handles_ok (fun c => c = mkContext (uuid_next w) None) w1.
Proof.
  intros Hw w1 E. rewrite _async_create_timer_eq in E.
  injection E as <-. unfold handles_ok. cbn -[tick_handle].
  apply Forall_app. split.
  - eapply Forall_impl; [exact Hw|]. intros th Hth Hp.
    unfold not_pending in Hth. congruence.
  - constructor; [|constructor]. intros _. reflexivity.
Qed.

(** ** Runs: the timer's handle *)

Lemma alter_last {A} (f : A -> A) (ts : list A) (th : A) :
  alter f (length ts) (ts ++ [th]) = ts ++ [f th].
Proof. rewrite alter_app_r_alt by lia. rewrite Nat.sub_diag. reflexivity. Qed.

Lemma not_pending_set_cancelled th : not_pending (set_cancelled th).
Proof. reflexivity. Qed.

Lemma not_pending_set_done th : not_pending (set_done th).
Proof. unfold not_pending, pending. cbn. apply andb_false_r. Qed.

Lemma handle_is_last_cancel w :
  handle_is_last w ->
  handle_is_last (cancel_handle w) /\ Forall not_pending (scheduled (hass (cancel_handle w))).
Proof.
  intros (ts & th & Hs & Hh & Hts). unfold cancel_handle. rewrite Hh. cbn.
  rewrite Hs, alter_last. split.
  - exists ts, (set_cancelled th). cbn. rewrite Hs, alter_last. auto.
  - apply Forall_app. split; [exact Hts|]. constructor; [|constructor].
    apply not_pending_set_cancelled.
Qed.

Lemma pending_is_last w i th :
  handle_is_last w ->
  scheduled (hass w) !! i = Some th -> pending th = true ->
  exists ts, scheduled (hass w) = ts ++ [th] /\ i = length ts /\ Forall not_pending ts.
Proof.
  intros (ts & th' & Hs & _ & Hts) Hi Hp. rewrite Hs in Hi.
  destruct (decide (i < length ts)%nat) as [Hlt|Hge].
  - rewrite lookup_app_l in Hi by exact Hlt.
    rewrite Forall_lookup in Hts. specialize (Hts i th Hi).
    unfold not_pending in Hts. congruence.
  - rewrite lookup_app_r in Hi by lia.
    destruct (i - length ts)%nat as [|k] eqn:Hk; [|destruct k; discriminate].
    cbn in Hi. injection Hi as <-. exists ts. split; [exact Hs|]. split; [lia|exact Hts].
Qed.

Lemma stop_listener_runs w ty :
  stop_listener ∈ listeners (hass w) -> ty = EVENT_HOMEASSISTANT_STOP ->
  exists l ls, List.filter (listens_exactly ty) (listeners (hass w)) = l :: ls.
Proof.
  intros Ha Hty. apply list_elem_of_In in Ha.
  assert (Hin : In stop_listener (List.filter (listens_exactly ty) (listeners (hass w)))).
  { apply filter_In. split; [exact Ha|]. cbn. apply bool_decide_eq_true. auto. }
  destruct (List.filter (listens_exactly ty) (listeners (hass w))) as [|l ls];
    [destruct Hin | eauto].
Qed.

Lemma dispatch_stop_cancels w ev :
  handle_is_last w -> stop_armed w ->
  event_type ev = EVENT_HOMEASSISTANT_STOP ->
  exists w', bus_dispatch ev w = inr (tt, w') /\
             handle_is_last w' /\
             Forall not_pending (scheduled (hass w')).
Proof.
  intros Hl Ha Hty. rewrite bus_dispatch_eq. cbn zeta.
  set (w1 := with_hass _ w).
  assert (Hl1 : handle_is_last w1) by exact Hl.
  eexists. split; [reflexivity|].
  destruct Ha as [Ha|Ha].
  - destruct (stop_listener_runs w _ Ha Hty) as (l & ls & ->).
    cbn [app]. apply (handle_is_last_cancel w1 Hl1).
  - destruct (_ ++ _); [split; [exact Hl1 | exact Ha]|].
    apply (handle_is_last_cancel w1 Hl1).
Qed.

Lemma step_handle_is_last a w :
  handle_is_last w -> stop_armed w ->
  exists w', step a w = inr (tt, w') /\ handle_is_last w' /\ stop_armed w'.
Proof.
  intros Hl Ha. destruct a as [i|ev]; cbn [step].
  - rewrite loop_run_handle_eq.
    destruct (scheduled (hass w) !! i) as [th|] eqn:Hi; [|exists w; auto].
    destruct (pending th) eqn:Hp; [|exists w; auto].
    destruct (pending_is_last w i th Hl Hi Hp) as (ts & Hs & -> & Hts).
    rewrite fire_time_event_eq. eexists. split; [reflexivity|].
    assert (Hd : scheduled (hass (mark_done (length ts) w)) = ts ++ [set_done th]).
    { cbn. rewrite Hs. apply alter_last. }
    split.
    + eexists _, _. cbn -[tick_handle tick_events mark_done].
      split; [reflexivity|]. split; [reflexivity|].
      rewrite Hd. apply Forall_app. split; [exact Hts|].
      constructor; [apply not_pending_set_done | constructor].
    + destruct Ha as [Ha|Ha]; [left; exact Ha|].
      rewrite Forall_lookup in Ha. specialize (Ha _ _ Hi).
      unfold not_pending in Ha. congruence.
  - destruct (decide (event_type ev = EVENT_HOMEASSISTANT_STOP)) as [Hty|Hty].
    + destruct (dispatch_stop_cancels w ev Hl Ha Hty) as (w' & E & Hl' & Hn).
      exists w'. split; [exact E|]. split; [exact Hl'|]. right. exact Hn.
    + rewrite bus_dispatch_eq. cbn zeta.
      set (w1 := with_hass _ w).
      assert (Hl1 : handle_is_last w1) by exact Hl.
      assert (Ha1 : stop_armed w1).
      { destruct Ha as [Ha|Ha]; [left|right; exact Ha].
        apply list_elem_of_In. apply filter_In. split; [apply list_elem_of_In, Ha|].
        unfold listens_to, listens_exactly, listens_to_all; cbn.
        rewrite andb_true_r, orb_false_r. apply negb_true_iff.
        apply bool_decide_eq_false. congruence. }
      eexists. split; [reflexivity|].
      destruct (_ ++ _); [auto|].
      destruct (handle_is_last_cancel w1 Hl1) as [H1 H2]. split; [exact H1|].
      right. exact H2.
Qed.

Lemma run_handle_is_last acts : forall w,
  handle_is_last w -> stop_armed w ->
  exists w', run acts w = inr (tt, w') /\ handle_is_last w' /\ stop_armed w'.
Proof.
  induction acts as [|a acts IH]; intros w Hl Ha; [exists w; auto|].
  destruct (step_handle_is_last a w Hl Ha) as (w1 & E1 & Hl1 & Ha1).
  destruct (IH w1 Hl1 Ha1) as (w2 & E2 & H2).
  exists w2. cbn [run]. unfold mbind, M_bind. rewrite E1. auto.
Qed.

(** ** Machine integers *)

Lemma to_Z_small (z : Z) : 0 <= z < wB -> z mod wB = z.
Proof. apply Z.mod_small. Qed.

Lemma to_Z_add_small (a b : int) :
  to_Z a + to_Z b < wB -> to_Z (a + b)%uint63 = to_Z a + to_Z b.
Proof.
  intros H. rewrite add_spec. apply Z.mod_small.
  pose proof (to_Z_bounded a). pose proof (to_Z_bounded b). lia.
Qed.

Lemma to_Z_of_pos_small (p : positive) : Zpos p < wB -> to_Z (of_pos p) = Zpos p.
Proof.
  intros H. change (of_pos p) with (of_Z (Zpos p)). rewrite of_Z_spec.
  apply Z.mod_small. lia.
Qed.

Lemma all_from_sound (p : int -> bool) (n : positive) : forall base,
  all_from n base p = true ->
  to_Z base + Zpos n <= wB ->
  forall i, to_Z base <= to_Z i < to_Z base + Zpos n -> p i = true.
Proof.
  induction n as [n IH|n IH|]; intros base H Hb i Hi; cbn [all_from] in H.
  - apply andb_prop in H as [H H3]. apply andb_prop in H as [H1 H2].
    pose proof (to_Z_bounded base).
    assert (E1 : to_Z (base + 1)%uint63 = to_Z base + 1).
    { rewrite to_Z_add_small; change (to_Z 1) with 1; lia. }
    assert (E2 : to_Z (base + 1 + of_pos n)%uint63 = to_Z base + 1 + Zpos n).
    { rewrite to_Z_add_small; rewrite E1, to_Z_of_pos_small; lia. }
    destruct (Z.eq_dec (to_Z i) (to_Z base)) as [E|NE].
    + apply to_Z_inj in E. subst i. exact H1.
    + destruct (Z_lt_le_dec (to_Z i) (to_Z base + 1 + Zpos n)).
      * apply (IH _ H2); lia.
      * apply (IH _ H3); lia.
  - apply andb_prop in H as [H1 H2].
    pose proof (to_Z_bounded base).
    assert (E2 : to_Z (base + of_pos n)%uint63 = to_Z base + Zpos n).
    { rewrite to_Z_add_small; rewrite to_Z_of_pos_small; lia. }
    destruct (Z_lt_le_dec (to_Z i) (to_Z base + Zpos n)).
    + apply (IH _ H1); lia.
    + apply (IH _ H2); lia.
  - assert (E : to_Z i = to_Z base) by lia. apply to_Z_inj in E. subst i. exact H.
Qed.

(** ** Reading a float back as mantissa and exponent *)

Lemma digits2_pos_size (p : positive) : digits2_pos p = Pos.size p.
Proof. induction p; cbn; congruence. Qed.

Lemma Zdigits2_53 (z : Z) :
  4503599627370496 <= z < 9007199254740992 -> Zdigits2 z = 53.
Proof.
  intros H. destruct z as [|p|p]; try lia. cbn [Zdigits2].
  rewrite digits2_pos_size.
  pose proof (Pos.size_gt p) as Hgt. pose proof (Pos.size_le p) as Hle.
  assert (Hp : Zpos p < 2 ^ Zpos (Pos.size p)).
  { rewrite <- Pos2Z.inj_pow. lia. }
  assert (Hq : 2 ^ Zpos (Pos.size p) <= 2 * Zpos p).
  { rewrite <- Pos2Z.inj_pow. lia. }
  destruct (Z_lt_le_dec (Zpos (Pos.size p)) 53) as [Hlt|Hge].
  - assert (2 ^ Zpos (Pos.size p) <= 2 ^ 52) by (apply Z.pow_le_mono_r; lia).
    change (2 ^ 52) with 4503599627370496 in *. lia.
  - destruct (Z_lt_le_dec 53 (Zpos (Pos.size p))) as [Hlt|Hge'].
    + assert (2 ^ 54 <= 2 ^ Zpos (Pos.size p)) by (apply Z.pow_le_mono_r; lia).
      change (2 ^ 54) with 18014398509481984 in *. lia.
    + f_equal. lia.
Qed.

Lemma shr_fexp_normal (z e : Z) :
  4503599627370496 <= z < 9007199254740992 -> -1074 <= e ->
  shr_fexp prec emax z e loc_Exact = (Build_shr_record z false false, e).
Proof.
  intros Hz He. unfold shr_fexp. rewrite (Zdigits2_53 z Hz).
  unfold fexp, SpecFloat.emin. change prec with 53. change emax with 1024.
  replace (Z.max (53 + e - 53) (3 - 1024 - 53)) with e by lia.
  rewrite Z.sub_diag. reflexivity.
Qed.

Lemma Prim2SF_positive_normal (d r : float) (se : int) :
  PrimFloat.is_nan d = false -> PrimFloat.is_zero d = false ->
  PrimFloat.is_infinity d = false -> PrimFloat.get_sign d = false ->
  frshiftexp d = (r, se) ->
  4503599627370496 <= to_Z (normfr_mantissa r) < 9007199254740992 ->
  1080 <= to_Z se ->
  Prim2SF d = S754_finite false (Z.to_pos (to_Z (normfr_mantissa r)))
                          (to_Z se - 2154).
Proof.
  intros Hn Hz Hi Hs Hfr HM Hse.
  unfold Prim2SF. rewrite Hn, Hz, Hi, Hs. unfold Z.frexp. rewrite Hfr.
  replace (to_Z se - FloatOps.shift - FloatOps.prec) with (to_Z se - 2154)
    by (change FloatOps.shift with 2101; change FloatOps.prec with 53; lia).
  rewrite shr_fexp_normal by lia. cbn [shr_m].
  destruct (to_Z (normfr_mantissa r)) as [|p|p] eqn:E; try lia.
  reflexivity.
Qed.

(** ** The check of the delay is sound *)

Lemma mantissa_close_sound (M se i : int) :
  to_Z i < 1000000 ->
  mantissa_close M se i = true ->
  4503599627370496 <= to_Z M < 9007199254740992 /\
  2081 <= to_Z se <= 2102 /\
  32 * Z.abs (to_Z M * 15625 - (1000000 - to_Z i) * 2 ^ 42 * 2 ^ (2106 - to_Z se))
    <= 15625 * 2 ^ (2106 - to_Z se).
Proof.
  intros Hi H. unfold mantissa_close in H. cbv zeta in H.
  apply andb_prop in H as [H Hc]. apply andb_prop in H as [H Hse2].
  apply andb_prop in H as [H Hse1]. apply andb_prop in H as [HM1 HM2].
  apply Uint63.leb_spec in HM1, Hse1, Hse2. apply Uint63.ltb_spec in HM2.
  change (to_Z 4503599627370496) with 4503599627370496 in HM1.
  change (to_Z 9007199254740992) with 9007199254740992 in HM2.
  change (to_Z 2081) with 2081 in Hse1. change (to_Z 2102) with 2102 in Hse2.
  split; [lia|]. split; [lia|].
  pose proof (to_Z_bounded i) as Bi.
  set (s := 2106 - to_Z se) in *.
  assert (Hs : to_Z (2106 - se)%uint63 = s).
  { rewrite sub_spec. change (to_Z 2106) with 2106. apply to_Z_small.
    change wB with 9223372036854775808. lia. }
  set (P := 2 ^ s).
  assert (HP : 16 <= P <= 33554432).
  { unfold P. split.
    - change 16 with (2 ^ 4). apply Z.pow_le_mono_r; lia.
    - change 33554432 with (2 ^ 25). apply Z.pow_le_mono_r; lia. }
  assert (HPz : to_Z (1 << (2106 - se))%uint63 = P).
  { rewrite lsl_spec, Hs. change (to_Z 1) with 1. rewrite Z.mul_1_l.
    apply to_Z_small. change wB with 9223372036854775808. lia. }
  set (a := to_Z M / P). set (b := to_Z M mod P).
  assert (Hab : to_Z M = P * a + b /\ 0 <= b < P).
  { unfold a, b. split; [apply Z.div_mod; lia | apply Z.mod_pos_bound; lia]. }
  assert (Ha : 0 <= a < 562949953421312).
  { destruct Hab as [E Hb]. split; nia. }
  set (c := (b * 15625) / P). set (r := (b * 15625) mod P).
  assert (Hcr : b * 15625 = P * c + r /\ 0 <= r < P).
  { unfold c, r. split; [apply Z.div_mod; lia | apply Z.mod_pos_bound; lia]. }
  assert (Hc' : 0 <= c < 15625).
  { destruct Hcr as [E Hr]. destruct Hab as [_ Hb]. split; nia. }
  assert (Ez1 : to_Z (M >> (2106 - se))%uint63 = a).
  { rewrite lsr_spec, Hs. reflexivity. }
  assert (Ez2 : to_Z ((M >> (2106 - se)) * 15625)%uint63 = a * 15625).
  { rewrite mul_spec, Ez1. change (to_Z 15625) with 15625. apply to_Z_small.
    change wB with 9223372036854775808. lia. }
  assert (Ez3 : to_Z (M mod (1 << (2106 - se)))%uint63 = b).
  { rewrite mod_spec, HPz. reflexivity. }
  assert (Ez4 : to_Z ((M mod (1 << (2106 - se))) * 15625)%uint63 = b * 15625).
  { rewrite mul_spec, Ez3. change (to_Z 15625) with 15625. apply to_Z_small.
    change wB with 9223372036854775808. lia. }
  assert (Ez5 : to_Z (((M mod (1 << (2106 - se))) * 15625) >> (2106 - se))%uint63 = c).
  { rewrite lsr_spec, Ez4, Hs. reflexivity. }
  set (X := ((M >> (2106 - se)) * 15625 +
             (((M mod (1 << (2106 - se))) * 15625) >> (2106 - se)))%uint63) in *.
  assert (EX : to_Z X = a * 15625 + c).
  { unfold X. rewrite add_spec, Ez2, Ez5. apply to_Z_small.
    change wB with 9223372036854775808. lia. }
  set (Y := ((1000000 - i) << 42)%uint63) in *.
  assert (EY : to_Z Y = (1000000 - to_Z i) * 2 ^ 42).
  { unfold Y. rewrite lsl_spec, sub_spec. change (to_Z 1000000) with 1000000.
    change (to_Z 42) with 42. rewrite (to_Z_small (1000000 - to_Z i)).
    - apply to_Z_small. change wB with 9223372036854775808.
      change (2 ^ 42) with 4398046511104. lia.
    - change wB with 9223372036854775808. lia. }
  assert (Hd : Z.abs (to_Z X - to_Z Y) <= 487).
  { apply Uint63.leb_spec in Hc. change (to_Z 487) with 487 in Hc.
    pose proof (to_Z_bounded X) as BX. pose proof (to_Z_bounded Y) as BY.
    destruct (X <=? Y)%uint63 eqn:Hle.
    - apply Uint63.leb_spec in Hle. rewrite sub_spec, to_Z_small in Hc; lia.
    - assert (to_Z Y < to_Z X).
      { destruct (Z_lt_le_dec (to_Z Y) (to_Z X)) as [|Hge]; [assumption|].
        apply Uint63.leb_spec in Hge. congruence. }
      rewrite sub_spec, to_Z_small in Hc; lia. }
  rewrite EX, EY in Hd. fold P.
  destruct Hab as [EM Hb]. destruct Hcr as [Ec Hr].
  set (n := (1000000 - to_Z i) * 2 ^ 42) in *.
  assert (EMP : to_Z M * 15625 = (a * 15625 + c) * P + r) by lia.
  rewrite EMP.
  replace ((a * 15625 + c) * P + r - n * P) with ((a * 15625 + c - n) * P + r) by ring.
  set (D := a * 15625 + c - n) in *.
  assert (Z.abs (D * P + r) <= 488 * P) by nia.
  lia.
Qed.

Lemma delay_check_value (i : int) :
  to_Z i < 1000000 -> delay_check i = true ->
  (0 <? slp_of_int i)%float = true /\
  (slp_of_int i <=? 1)%float = true /\
  exists v, float_value (slp_of_int i) = Some v /\
            (0 < v)%Q /\ (v <= 1)%Q /\
            (Qabs (v - (1 - (to_Z i # 1000000))) <= 1 # 2 ^ 53)%Q.
Proof.
  intros Hi H. unfold delay_check in H. cbv zeta in H.
  destruct (frshiftexp (slp_of_int i)) as [r se] eqn:Hfr.
  apply andb_prop in H as [H Hclose]. apply andb_prop in H as [H Hsign].
  apply andb_prop in H as [H Hinf]. apply andb_prop in H as [H Hzero].
  apply andb_prop in H as [H Hnan]. apply andb_prop in H as [Hpos Hle].
  apply negb_true_iff in Hsign, Hinf, Hzero, Hnan.
  split; [exact Hpos|]. split; [exact Hle|].
  destruct (mantissa_close_sound _ _ _ Hi Hclose) as (HM & Hse & Hc).
  pose proof (to_Z_bounded i) as Bi.
  unfold float_value.
  rewrite (Prim2SF_positive_normal _ r se Hnan Hzero Hinf Hsign Hfr HM) by lia.
  destruct (to_Z (normfr_mantissa r)) as [|M|M] eqn:EM; try lia.
  destruct (to_Z se - 2154) as [|k|k] eqn:Ek; try lia.
  cbn [SF_value Z.to_pos cond_Zopp]. eexists. split; [reflexivity|].
  assert (Ek' : 2106 - to_Z se = Zpos k - 48) by lia.
  rewrite Ek' in Hc.
  assert (EP : 2 ^ Zpos k = 2 ^ 48 * 2 ^ (Zpos k - 48)).
  { rewrite <- Z.pow_add_r by lia. f_equal. lia. }
  assert (HP : 16 <= 2 ^ (Zpos k - 48)).
  { change 16 with (2 ^ 4). apply Z.pow_le_mono_r; lia. }
  change (2 ^ 48) with 281474976710656 in EP.
  change (2 ^ 42) with 4398046511104 in Hc.
  unfold Qabs, Qle, Qlt, Qminus, Qplus, Qopp. cbn [Qnum Qden].
  rewrite !Pos2Z.inj_mul, !Pos2Z.inj_pow.
  change (2 ^ 53) with 9007199254740992.
  set (K := 2 ^ Zpos k) in *. clearbody K.
  set (P := 2 ^ (Zpos k - 48)) in *. clearbody P.
  set (m := to_Z i) in *. clearbody m.
  assert (HnP : (1000000 - m) * P <= 1000000 * P) by nia.
  split; [lia|]. split; [|lia].
  destruct (Z_lt_le_dec P 32); lia.
Qed.

Lemma delay_check_all : all_from 1000000 0 delay_check = true.
Proof. vm_cast_no_check (eq_refl true). Qed.

Lemma slp_seconds_of_int (now : Date) :
  slp_seconds now = slp_of_int (of_Z (microsecond now)).
Proof. reflexivity. Qed.

(** For each of the million values of [now.microsecond], the delay is a
    positive float, at most 1, and the number it stands for is within
    [2 ^ -53] of [1 - m / 10 ^ 6]. *)
Lemma slp_seconds_checked (now : Date) :
  valid_Date now ->
  (0 <? slp_seconds now)%float = true /\
  (slp_seconds now <=? 1)%float = true /\
  exists v, float_value (slp_seconds now) = Some v /\
            (0 < v)%Q /\ (v <= 1)%Q /\
            (Qabs (v - (1 - (microsecond now # 1000000))) <= 1 # 2 ^ 53)%Q.
Proof.
  intros Hv. unfold valid_Date in Hv. rewrite slp_seconds_of_int.
  assert (Ei : to_Z (of_Z (microsecond now)) = microsecond now).
  { rewrite of_Z_spec. apply to_Z_small. change wB with 9223372036854775808. lia. }
  assert (Hc : delay_check (of_Z (microsecond now)) = true).
  { apply (all_from_sound delay_check 1000000 0%uint63 delay_check_all).
    - change (to_Z 0) with 0. change wB with 9223372036854775808. lia.
    - change (to_Z 0) with 0. lia. }
  pose proof (delay_check_value (of_Z (microsecond now))) as H.
  rewrite Ei in H. apply H; [lia | exact Hc].
Qed.

(** The offset as a fraction of the second. *)
Lemma offset_bounds (now : Date) :
  valid_Date now ->
  (0 <= microsecond now # 1000000)%Q /\
  (microsecond now # 1000000 <= 999999 # 1000000)%Q /\
  (0 < microsecond now -> (1 # 1000000 <= microsecond now # 1000000)%Q).
Proof.
  unfold valid_Date, Qle. cbn [Qnum Qden]. intros H. repeat split; try lia.
Qed.

(** The number the delay stands for, between two rationals. *)
Lemma delay_value (now : Date) :
  valid_Date now ->
  exists v, float_value (slp_seconds now) = Some v /\
            (1 - (microsecond now # 1000000) - (1 # 9007199254740992) <= v)%Q /\
            (v <= 1 - (microsecond now # 1000000) + (1 # 9007199254740992))%Q.
Proof.
  intros Hv. destruct (slp_seconds_checked now Hv) as (_ & _ & v & Ev & _ & _ & Hb).
  exists v. split; [exact Ev|].
  change (1 # 2 ^ 53)%Q with (1 # 9007199254740992)%Q in Hb.
  apply Qabs_Qle_condition in Hb. destruct Hb as [Hb1 Hb2]. split; lra.
Qed.

(** ** Comparisons with 1 *)

Lemma SFleb_above_one (m : positive) (sf : spec_float) :
  (4503599627370496 < m)%positive ->
  SFleb (S754_finite false m (-52)) sf = true ->
  SFltb (S754_finite false 4503599627370496 (-52)) sf = true.
Proof.
  intros Hm. unfold SFleb, SFltb, SFcompare.
  destruct sf as [s|s| |s m' e]; try discriminate.
  - destruct s; [discriminate|reflexivity].
  - destruct s; [discriminate|].
    destruct (Z.compare (-52) e); try discriminate; [|reflexivity].
    change (Pos.compare_cont Eq m m') with (Pos.compare m m').
    change (Pos.compare_cont Eq 4503599627370496 m')
      with (Pos.compare 4503599627370496 m').
    destruct (Pos.compare_spec m m') as [E'|E'|E']; try discriminate; intros _.
    + subst m'. rewrite (proj2 (Pos.compare_lt_iff _ _) Hm). reflexivity.
    + rewrite (proj2 (Pos.compare_lt_iff 4503599627370496 m')); [reflexivity|lia].
Qed.

(** A float that compares at least 1.2 compares above 1. *)
Lemma about_1_3_above_one (x : float) : about_1_3 x = true -> (1 <? x)%float = true.
Proof.
  unfold about_1_3, within. intros H. apply andb_prop in H as [H _]. revert H.
  rewrite FloatAxioms.leb_spec, FloatAxioms.ltb_spec.
  change (Prim2SF 1) with (S754_finite false 4503599627370496 (-52)).
  change (Prim2SF 1.2) with (S754_finite false 5404319552844595 (-52)).
  apply SFleb_above_one. reflexivity.
Qed.

Lemma out_of_sync_event_inj ctx now a b :
  out_of_sync_event ctx now a = out_of_sync_event ctx now b -> a = b.
Proof.
  intros H. apply (f_equal (fun e => data e !! ATTR_SECONDS)) in H.
  cbn [data out_of_sync_event] in H. rewrite !lookup_singleton_eq in H.
  congruence.
Qed.

(** ** Examples *)

(** At offset 333333 the delay is the float nearest to 0.666667; at offset 0
    it is a whole second; at 999999 it is about a microsecond. *)
Example slp_seconds_333333 :
  slp_seconds (mkDate 1546225445 333333) = 0.666667%float.
Proof. reflexivity. Qed.

Example slp_seconds_0 : slp_seconds (mkDate 1546225445 0) = 1%float.
Proof. reflexivity. Qed.

Example slp_seconds_999999 :
  Prim2SF (slp_seconds (mkDate 1546225445 999999))
  = S754_finite false 4722366483005440 (-72).
Proof. reflexivity. Qed.

(** In the quiet world the timer is created, two ticks run on time, the hub
    stops, and the third handle never runs. *)
Example quiet_run :
  option_map (fun w => (fired_types w, handle_states w, handle w, listeners (hass w)))
    (world_after
       ((_async_create_timer;;
         run [LoopRuns 0%nat; LoopRuns 1%nat; BusDelivers hub_stop_event;
              LoopRuns 2%nat]) quiet_world))
  = Some (["time_changed"; "time_changed"],
          [(false, true); (false, true); (true, false)],
          Some 2%nat, []).
Proof. vm_compute. reflexivity. Qed.

(** A handle does not run twice, and a cancelled handle does not run. *)
Example quiet_run_twice :
  option_map fired_types
    (world_after
       ((_async_create_timer;;
         run [LoopRuns 0%nat; LoopRuns 0%nat; BusDelivers hub_stop_event;
              LoopRuns 1%nat; LoopRuns 1%nat]) quiet_world))
  = Some ["time_changed"].
Proof. vm_compute. reflexivity. Qed.

(** The late scenario: both events, in order. *)
Example late_tick_events :
  option_map fired_types
    (world_after (fire_time_event (mkContext 0 None) late_target late_world))
  = Some ["time_changed"; "timer_out_of_sync"].
Proof. vm_compute. reflexivity. Qed.

Example late_tick_lateness :
  lateness late_world late_target = 1.2999999999999972%float.
Proof. reflexivity. Qed.

(** Without its guard, [stop_timer] would raise before the first tick is
    scheduled. *)
Example cancel_on_None_raises :
  method_cancel None quiet_world
  = inl (AttributeError "'NoneType' object has no attribute 'cancel'").
Proof. reflexivity. Qed.

(** * The claims *)

(** ** One wake-up *)

(** C1 as the spec states it fails: in the scenario where the tick fires
    about 1.3 seconds after its intended time, the two events are published
    in order, but [seconds] is the whole lateness, about 1.3, and not about
    0.3. *)
Lemma late_tick_seconds_not_about_0_3 :
  about_1_3 (lateness late_world late_target) = true /\
  ~ (exists w' s,
       fire_time_event (mkContext 0 None) late_target late_world = inr (tt, w') /\
       fired (hass w') =
         fired (hass late_world) ++
           [time_changed_event (mkContext 0 None) late_T;
            out_of_sync_event (mkContext 0 None) late_T s] /\
       about_0_3 s = true).
Proof.
  split; [reflexivity|].
  intros (w' & s & E & F & A).
  rewrite fire_time_event_eq in E. injection E as <-. cbn [hass fired] in F.
  change (fired (hass late_world)) with (@nil Event) in F. cbn [app] in F.
  assert (T : tick_events (mkContext 0 None) late_T (lateness late_world late_target)
              = [time_changed_event (mkContext 0 None) late_T;
                 out_of_sync_event (mkContext 0 None) late_T
                                   (lateness late_world late_target)])
    by reflexivity.
  rewrite T in F.
  apply (f_equal (fun l => nth 1 l (time_changed_event (mkContext 0 None) late_T))) in F.
  cbn [nth] in F.
  apply out_of_sync_event_inj in F. subst s. vm_compute in A. discriminate.
Qed.

(** C1, amended: if a tick fires about 1.3 seconds later than its intended
    fire time, at wall-clock time [T], then a [time_changed] event with
    [now = T] and a [timer_out_of_sync] event are published, in that order,
    and [seconds] is the lateness itself, about 1.3. *)
Theorem fire_time_event_late_scenario (ctx : Context) (target : float) (w : World) :
  about_1_3 (lateness w target) = true ->
  let T := next_utc w in
  let late := lateness w target in
  exists w',
    fire_time_event ctx target w = inr (tt, w') /\
    fired (hass w') =
      fired (hass w) ++ [time_changed_event ctx T; out_of_sync_event ctx T late] /\
    data (time_changed_event ctx T) !! ATTR_NOW = Some (VDate T) /\
    data (out_of_sync_event ctx T late) !! ATTR_SECONDS = Some (VFloat late) /\
    about_1_3 late = true.
Proof.
  intros H T late. eexists. split; [apply fire_time_event_eq|].
  cbn [hass fired]. unfold tick_events. fold T late.
  rewrite (about_1_3_above_one late H).
  split; [reflexivity|]. split; [apply lookup_singleton_eq|].
  split; [apply lookup_singleton_eq | exact H].
Qed.

Lemma fire_time_event_late_scenario_witness :
  about_1_3 (lateness late_world late_target) = true /\
  exists w',
    fire_time_event (mkContext 0 None) late_target late_world = inr (tt, w') /\
    fired (hass w') =
      fired (hass late_world) ++
        [time_changed_event (mkContext 0 None) (next_utc late_world);
         out_of_sync_event (mkContext 0 None) (next_utc late_world)
                           (lateness late_world late_target)] /\
    data (time_changed_event (mkContext 0 None) (next_utc late_world)) !! ATTR_NOW
      = Some (VDate (next_utc late_world)) /\
    data (out_of_sync_event (mkContext 0 None) (next_utc late_world)
                            (lateness late_world late_target)) !! ATTR_SECONDS
      = Some (VFloat (lateness late_world late_target)) /\
    about_1_3 (lateness late_world late_target) = true.
Proof.
  split; [reflexivity|].
  apply (fire_time_event_late_scenario (mkContext 0 None) late_target late_world).
  reflexivity.
Defined.

(** C2: every wake-up publishes exactly one [time_changed] event, first; a
    [timer_out_of_sync] event follows it exactly when the measured lateness
    [monotonic() - target] is strictly above one second, and that event
    carries the lateness under the key [seconds].  The same events are
    published when the loop runs a pending handle scheduled with that
    [target]. *)
Theorem fire_time_event_publishes (ctx : Context) (target : float) (w : World) :
  let now := next_utc w in
  let late := lateness w target in
  exists w' rest,
    fire_time_event ctx target w = inr (tt, w') /\
    fired (hass w') = fired (hass w) ++ time_changed_event ctx now :: rest /\
    List.filter is_time_changed (time_changed_event ctx now :: rest)
      = [time_changed_event ctx now] /\
    rest = (if (1 <? late)%float then [out_of_sync_event ctx now late] else []) /\
    ((exists e, e ∈ rest /\ event_type e = EVENT_TIMER_OUT_OF_SYNC)
       <-> (1 <? late)%float = true) /\
    (forall e, e ∈ rest ->
       event_type e = EVENT_TIMER_OUT_OF_SYNC /\
       data e !! ATTR_SECONDS = Some (VFloat late)) /\
    (forall i th,
       scheduled (hass w) !! i = Some th -> pending th = true ->
       th_callback th = cb_fire_time_event ctx -> th_args th = target ->
       exists w2, loop_run_handle i w = inr (tt, w2) /\
                  fired (hass w2) = fired (hass w')).
Proof.
  intros now late.
  eexists _, (if (1 <? late)%float then [out_of_sync_event ctx now late] else []).
  split; [apply fire_time_event_eq|].
  split; [reflexivity|].
  split; [apply (tick_events_time_changed ctx now late)|].
  split; [reflexivity|].
  split; [|split].
  - destruct (1 <? late)%float; split; try discriminate; try reflexivity.
    + intros _. exists (out_of_sync_event ctx now late).
      split; [apply list_elem_of_singleton; reflexivity | reflexivity].
    + intros (e & He & _). inversion He.
  - intros e He. destruct (1 <? late)%float; [|inversion He].
    apply list_elem_of_singleton in He. subst e. split; reflexivity.
  - intros i th Hi Hp Hcb Harg. rewrite loop_run_handle_eq, Hi, Hp, Hcb, Harg.
    cbn [cb_context]. rewrite fire_time_event_eq. eexists. split; reflexivity.
Qed.

(** C5: a wake-up first publishes, then calls [schedule_tick] with the
    wall-clock time it captured on entry.  The delay of the new handle is
    computed from that time: the number it stands for is
    [1 - microsecond / 10 ^ 6] of the captured time up to one rounding, so
    that captured offset plus delay is the next whole second; a wake-up that
    captures the same offset schedules the same delay, one that captures a
    later offset of the second a strictly shorter one.  The target of the new
    handle is a fresh monotonic reading plus that delay.  Neither depends on
    the [target] the wake-up was called with. *)
Theorem fire_time_event_reschedules (ctx : Context) (target : float) (w : World) :
  let now := next_utc w in
  exists w1 w' th,
    fire_time_event ctx target w = schedule_tick ctx now w1 /\
    fired (hass w1) = fired (hass w) ++ tick_events ctx now (lateness w target) /\
    scheduled (hass w1) = scheduled (hass w) /\
    schedule_tick ctx now w1 = inr (tt, w') /\
    fired (hass w') = fired (hass w1) /\
    scheduled (hass w') = scheduled (hass w) ++ [th] /\
    th = mkTimerHandle (slp_seconds now) (cb_fire_time_event ctx)
                       (next_mono w1 + slp_seconds now)%float false false /\
    next_mono w1 = next_mono2 w /\
    handle w' = Some (length (scheduled (hass w))) /\
    (valid_Date now ->
       exists v,
         float_value (th_delay th) = Some v /\
         (Qabs (v - (1 - (microsecond now # 1000000))) <= 1 # 2 ^ 53)%Q /\
         (Qabs ((microsecond now # 1000000) + v - 1) <= 1 # 2 ^ 53)%Q) /\
    (forall ctx2 target2 w2,
       microsecond (next_utc w2) = microsecond now ->
       exists w2' th2,
         fire_time_event ctx2 target2 w2 = inr (tt, w2') /\
         scheduled (hass w2') = scheduled (hass w2) ++ [th2] /\
         th_delay th2 = th_delay th) /\
    (forall ctx2 target2 w2,
       valid_Date now -> valid_Date (next_utc w2) ->
       microsecond now < microsecond (next_utc w2) ->
       exists w2' th2 v v2,
         fire_time_event ctx2 target2 w2 = inr (tt, w2') /\
         scheduled (hass w2') = scheduled (hass w2) ++ [th2] /\
         float_value (th_delay th) = Some v /\
         float_value (th_delay th2) = Some v2 /\
         (v2 < v)%Q /\
         th_delay th2 <> th_delay th) /\
    (forall target2, exists w2',
        fire_time_event ctx target2 w = inr (tt, w2') /\
        scheduled (hass w2') = scheduled (hass w') /\
        handle w2' = handle w').
Proof.
  intros now.
  exists (mkWorld (mkHass (listeners (hass w))
                          (fired (hass w) ++ tick_events ctx now (lateness w target))
                          (scheduled (hass w)))
                  (handle w) (logged w) (utc_clock w) (S (utc_reads w))
                  (mono_clock w) (S (mono_reads w)) (uuid_next w)).
  eexists. exists (tick_handle ctx now (next_mono2 w)).
  rewrite fire_time_event_eq, schedule_tick_eq.
  do 9 (split; [reflexivity|]).
  split; [|split; [|split]].
  - intros Hv.
    destruct (slp_seconds_checked now Hv) as (_ & _ & v & Ev & _ & _ & Hb).
    exists v. split; [exact Ev|]. split; [exact Hb|].
    assert (E : ((microsecond now # 1000000) + v - 1
                 == v - (1 - (microsecond now # 1000000)))%Q) by ring.
    rewrite E. exact Hb.
  - intros ctx2 target2 w2 Hm.
    eexists _, (tick_handle ctx2 (next_utc w2) (next_mono2 w2)).
    rewrite fire_time_event_eq. split; [reflexivity|]. split; [reflexivity|].
    cbn [th_delay tick_handle]. unfold slp_seconds. rewrite Hm. reflexivity.
  - intros ctx2 target2 w2 Hv Hv2 Hlt.
    destruct (delay_value now Hv) as (v & Ev & L & U).
    destruct (delay_value (next_utc w2) Hv2) as (v2 & E2 & L2 & U2).
    assert (Hstep : ((microsecond now # 1000000) + (1 # 1000000)
                     <= microsecond (next_utc w2) # 1000000)%Q).
    { unfold Qle, Qplus. cbn [Qnum Qden]. lia. }
    assert (Hlt' : (v2 < v)%Q) by lra.
    eexists _, (tick_handle ctx2 (next_utc w2) (next_mono2 w2)), v, v2.
    rewrite fire_time_event_eq. split; [reflexivity|]. split; [reflexivity|].
    split; [exact Ev|]. split; [exact E2|]. split; [exact Hlt'|].
    cbn [th_delay tick_handle]. intros E. rewrite E, Ev in E2. injection E2 as E2.
    rewrite E2 in Hlt'. exact (Qlt_irrefl v2 Hlt').
  - intros target2. eexists. rewrite fire_time_event_eq. repeat split.
Qed.

Lemma fire_time_event_reschedules_witness :
  valid_Date (next_utc quiet_world) /\
  valid_Date (next_utc later_world) /\
  microsecond (next_utc quiet_world) < microsecond (next_utc later_world) /\
  exists w' th w2' th2 v v2,
    fire_time_event (mkContext 0 None) late_target quiet_world = inr (tt, w') /\
    scheduled (hass w') = scheduled (hass quiet_world) ++ [th] /\
    fire_time_event (mkContext 0 None) on_the_second_target later_world
      = inr (tt, w2') /\
    scheduled (hass w2') = scheduled (hass later_world) ++ [th2] /\
    float_value (th_delay th) = Some v /\
    float_value (th_delay th2) = Some v2 /\
    (v2 < v)%Q /\
    th_delay th2 <> th_delay th.
Proof.
  split; [unfold valid_Date; simpl; lia|].
  split; [unfold valid_Date; simpl; lia|].
  split; [simpl; lia|].
  destruct (fire_time_event_reschedules (mkContext 0 None) late_target quiet_world)
    as (w1 & w' & th & E1 & _ & _ & E2 & _ & S & _ & _ & _ & _ & _ & Hlater & _).
  destruct (Hlater (mkContext 0 None) on_the_second_target later_world)
    as (w2' & th2 & v & v2 & F & S2 & Ev & Ev2 & Hlt & Hne);
    [unfold valid_Date; simpl; lia | unfold valid_Date; simpl; lia | simpl; lia |].
  exists w', th, w2', th2, v, v2.
  split; [rewrite E1; exact E2|]. split; [exact S|]. split; [exact F|].
  split; [exact S2|]. split; [exact Ev|]. split; [exact Ev2|].
  split; [exact Hlt | exact Hne].
Defined.

(** C6: [stop_timer] never raises.  With [handle] still [None] it leaves the
    world as it is (the unguarded call [handle.cancel()] would raise); with a
    handle it marks that handle cancelled, so the loop will not run it, and
    touches no other handle. *)
Theorem stop_timer_safe (ev : Event) (w : World) :
  (exists w', stop_timer ev w = inr (tt, w')) /\
  (handle w = None ->
     stop_timer ev w = inr (tt, w) /\
     exists msg, method_cancel (handle w) w = inl (AttributeError msg)) /\
  (forall i, handle w = Some i ->
     exists w',
       stop_timer ev w = inr (tt, w') /\
       length (scheduled (hass w')) = length (scheduled (hass w)) /\
       (forall th, scheduled (hass w) !! i = Some th ->
          scheduled (hass w') !! i = Some (set_cancelled th) /\
          pending (set_cancelled th) = false /\
          loop_run_handle i w' = inr (tt, w')) /\
       (forall j, j <> i -> scheduled (hass w') !! j = scheduled (hass w) !! j) /\
       fired (hass w') = fired (hass w) /\
       handle w' = handle w).
Proof.
  rewrite stop_timer_eq. unfold cancel_handle.
  split; [eexists; reflexivity|]. split.
  - intros H. rewrite H. split; [reflexivity|]. eexists. reflexivity.
  - intros i H. rewrite H. eexists. split; [reflexivity|].
    cbn [hass scheduled fired handle with_hass with_scheduled].
    split; [apply length_alter|].
    split.
    + intros th Hth.
      assert (Hl : alter set_cancelled i (scheduled (hass w)) !! i
                   = Some (set_cancelled th)).
      { rewrite list_lookup_alter_eq, Hth. reflexivity. }
      split; [exact Hl|]. split; [reflexivity|].
      rewrite loop_run_handle_eq.
      cbn [hass scheduled with_hass with_scheduled]. rewrite Hl. reflexivity.
    + split; [|split; [reflexivity | exact H]].
      intros j Hj. apply list_lookup_alter_ne. congruence.
Qed.

(** C8: within one wake-up the wall clock is read once; that reading is the
    [time_fired] of every event of the tick and the [now] of the
    [time_changed] event's data. *)
Theorem fire_time_event_single_timestamp (ctx : Context) (target : float) (w : World) :
  let now := next_utc w in
  exists w' e0 rest,
    fire_time_event ctx target w = inr (tt, w') /\
    fired (hass w') = fired (hass w) ++ e0 :: rest /\
    utc_reads w' = S (utc_reads w) /\
    event_type e0 = EVENT_TIME_CHANGED /\
    time_fired e0 = now /\
    data e0 !! ATTR_NOW = Some (VDate now) /\
    (forall e, e ∈ rest ->
       event_type e = EVENT_TIMER_OUT_OF_SYNC /\ time_fired e = now).
Proof.
  intros now. rewrite fire_time_event_eq. unfold tick_events. fold now.
  eexists _, _, _. split; [reflexivity|]. cbn -[PrimFloat.ltb].
  repeat split.
  - destruct (1 <? _)%float; [|inversion H].
    apply list_elem_of_singleton in H. subst e. reflexivity.
  - destruct (1 <? _)%float; [|inversion H].
    apply list_elem_of_singleton in H. subst e. reflexivity.
Qed.

(** ** Scheduling a tick *)

(** C4 as the spec states it fails: the delay is a binary64 number, and
    [1 - m / 10 ^ 6] seldom is one.  At offset 333333 the delay
    [schedule_tick] passes to [call_later] stands for
    6004802505560413 / 2 ^ 53, which is not 1 - 333333 / 10 ^ 6. *)
Lemma schedule_tick_delay_not_exact :
  valid_Date (mkDate 1546225445 333333) /\
  (exists w' th,
     schedule_tick (mkContext 0 None) (mkDate 1546225445 333333) quiet_world
       = inr (tt, w') /\
     scheduled (hass w') = scheduled (hass quiet_world) ++ [th] /\
     float_value (th_delay th) = Some (6004802505560413 # 9007199254740992)) /\
  ~ (exists w' th v,
       schedule_tick (mkContext 0 None) (mkDate 1546225445 333333) quiet_world
         = inr (tt, w') /\
       scheduled (hass w') = scheduled (hass quiet_world) ++ [th] /\
       float_value (th_delay th) = Some v /\
       (v == 1 - (333333 # 1000000))%Q).
Proof.
  split; [unfold valid_Date; simpl; lia|]. split.
  - eexists _, _. split; [apply schedule_tick_eq|]. split; reflexivity.
  - intros (w' & th & v & E & S & F & Hv).
    rewrite schedule_tick_eq in E. injection E as <-. cbn [hass scheduled] in S.
    change (scheduled (hass quiet_world) ++ [th]) with [th] in S. injection S as <-.
    change (Some (6004802505560413 # 9007199254740992) = Some v) in F.
    injection F as <-. revert Hv. unfold Qeq. cbn. lia.
Qed.

(** C4, amended: the handle [schedule_tick] creates from a time whose
    sub-second offset is [m] microseconds has the delay [1 - m / 10 ** 6] as
    Python computes it in binary64.  The number it stands for is
    [1 - m / 10 ^ 6] up to rounding, within [2 ^ -53] second, so that offset
    plus delay is a whole second up to that rounding; at offset 0 the delay is
    one second exactly. *)
Theorem schedule_tick_delay (ctx : Context) (now : Date) (w : World) :
  valid_Date now ->
  let m := microsecond now in
  exists w' th v,
    schedule_tick ctx now w = inr (tt, w') /\
    scheduled (hass w') = scheduled (hass w) ++ [th] /\
    th_delay th = (1 - int_truediv m (10 ^ 6))%float /\
    th_args th = (next_mono w + th_delay th)%float /\
    float_value (th_delay th) = Some v /\
    (Qabs (v - (1 - (m # 1000000))) <= 1 # 2 ^ 53)%Q /\
    (Qabs ((m # 1000000) + v - 1) <= 1 # 2 ^ 53)%Q /\
    (m = 0 -> (v == 1)%Q).
Proof.
  intros Hv m.
  destruct (slp_seconds_checked now Hv) as (_ & _ & v & Ev & _ & _ & Hb).
  eexists _, (tick_handle ctx now (next_mono w)), v.
  split; [apply schedule_tick_eq|]. split; [reflexivity|].
  split; [reflexivity|]. split; [reflexivity|]. split; [exact Ev|].
  split; [exact Hb|]. split.
  - assert (E : ((m # 1000000) + v - 1 == v - (1 - (m # 1000000)))%Q) by ring.
    rewrite E. exact Hb.
  - intros Hm. assert (E : slp_seconds now = 1%float).
    { unfold slp_seconds. fold m. rewrite Hm. reflexivity. }
    rewrite E in Ev.
    change (float_value 1) with (Some (4503599627370496 # 4503599627370496)) in Ev.
    injection Ev as Ev. rewrite <- Ev. reflexivity.
Qed.

Lemma schedule_tick_delay_witness :
  valid_Date (mkDate 1546225445 333333) /\
  exists w' th v,
    schedule_tick (mkContext 0 None) (mkDate 1546225445 333333) quiet_world
      = inr (tt, w') /\
    scheduled (hass w') = scheduled (hass quiet_world) ++ [th] /\
    th_delay th = (1 - int_truediv 333333 (10 ^ 6))%float /\
    th_args th = (next_mono quiet_world + th_delay th)%float /\
    float_value (th_delay th) = Some v /\
    (Qabs (v - (1 - (333333 # 1000000))) <= 1 # 2 ^ 53)%Q /\
    (Qabs ((333333 # 1000000) + v - 1) <= 1 # 2 ^ 53)%Q /\
    (333333 = 0 -> (v == 1)%Q).
Proof.
  split; [unfold valid_Date; simpl; lia|].
  apply (schedule_tick_delay (mkContext 0 None) (mkDate 1546225445 333333) quiet_world).
  unfold valid_Date; simpl; lia.
Defined.

(** C9: whenever a tick is scheduled, the delay is a float that compares
    above 0 and at most 1, and the number it stands for lies in (0, 1]; at a
    microsecond offset of 0 it is the float 1. *)
Theorem schedule_tick_delay_range (ctx : Context) (now : Date) (w : World) :
  valid_Date now ->
  exists w' th v,
    schedule_tick ctx now w = inr (tt, w') /\
    scheduled (hass w') = scheduled (hass w) ++ [th] /\
    (0 <? th_delay th)%float = true /\
    (th_delay th <=? 1)%float = true /\
    float_value (th_delay th) = Some v /\
    (0 < v)%Q /\ (v <= 1)%Q /\
    (microsecond now = 0 -> th_delay th = 1%float).
Proof.
  intros Hv.
  destruct (slp_seconds_checked now Hv) as (H0 & H1 & v & Ev & Hp & Hl & _).
  eexists _, (tick_handle ctx now (next_mono w)), v.
  split; [apply schedule_tick_eq|]. split; [reflexivity|].
  split; [exact H0|]. split; [exact H1|]. split; [exact Ev|].
  split; [exact Hp|]. split; [exact Hl|].
  intros Hm. cbn [th_delay tick_handle]. unfold slp_seconds. rewrite Hm. reflexivity.
Qed.

Lemma schedule_tick_delay_range_witness :
  valid_Date (mkDate 1546225445 0) /\
  exists w' th v,
    schedule_tick (mkContext 0 None) (mkDate 1546225445 0) quiet_world = inr (tt, w') /\
    scheduled (hass w') = scheduled (hass quiet_world) ++ [th] /\
    (0 <? th_delay th)%float = true /\
    (th_delay th <=? 1)%float = true /\
    float_value (th_delay th) = Some v /\
    (0 < v)%Q /\ (v <= 1)%Q /\
    (microsecond (mkDate 1546225445 0) = 0 -> th_delay th = 1%float).
Proof.
  split; [unfold valid_Date; simpl; lia|].
  apply (schedule_tick_delay_range (mkContext 0 None) (mkDate 1546225445 0) quiet_world).
  unfold valid_Date; simpl; lia.
Defined.

(** ** Whole runs *)

(** C3: the timer mints one context, when it is created, and never another;
    every event of every tick it ever fires carries that context.  (The
    hypothesis: the loop holds no handle of an earlier timer that is still to
    run.) *)
Theorem timer_context_shared (w : World) (acts : list Action) :
  Forall not_pending (scheduled (hass w)) ->
  let ctx := mkContext (uuid_next w) None in
  exists w1 w2 ticks,
    _async_create_timer w = inr (tt, w1) /\
    uuid_next w1 = N.succ (uuid_next w) /\
    fired (hass w1) = fired (hass w) /\
    run acts w1 = inr (tt, w2) /\
    uuid_next w2 = uuid_next w1 /\
    fired (hass w2) = fired (hass w) ++ flat_map events_of_tick ticks /\
    Forall (fun t => tick_context t = ctx) ticks /\
    (forall e, e ∈ flat_map events_of_tick ticks -> context e = ctx) /\
    Forall (fun th => pending th = true -> th_callback th = cb_fire_time_event ctx)
           (scheduled (hass w2)).
Proof.
  intros Hw ctx.
  pose proof (handles_ok_created w Hw _ (_async_create_timer_eq w)) as Hok.
  fold ctx in Hok.
  destruct (run_ticks (fun c => c = ctx) acts _ Hok) as (w2 & ticks & E & Hok2 & F & HP & U).
  eexists _, w2, ticks. split; [apply _async_create_timer_eq|].
  repeat split; try assumption.
  - intros e He. apply flat_map_tick_inv in He as (t & Ht & He).
    rewrite Forall_forall in HP. specialize (HP t Ht).
    apply tick_events_inv in He as [->|[_ ->]]; exact HP.
  - eapply Forall_impl; [exact Hok2|]. intros th H Hp. specialize (H Hp).
    destruct (th_callback th); cbn in H. congruence.
Qed.

Lemma timer_context_shared_witness :
  Forall not_pending (scheduled (hass quiet_world)) /\
  exists w1 w2 ticks,
    _async_create_timer quiet_world = inr (tt, w1) /\
    uuid_next w1 = N.succ (uuid_next quiet_world) /\
    fired (hass w1) = fired (hass quiet_world) /\
    run [LoopRuns 0%nat; LoopRuns 1%nat] w1 = inr (tt, w2) /\
    uuid_next w2 = uuid_next w1 /\
    fired (hass w2) = fired (hass quiet_world) ++ flat_map events_of_tick ticks /\
    Forall (fun t => tick_context t = mkContext 0 None) ticks /\
    (forall e, e ∈ flat_map events_of_tick ticks -> context e = mkContext 0 None) /\
    Forall (fun th => pending th = true ->
                      th_callback th = cb_fire_time_event (mkContext 0 None))
           (scheduled (hass w2)).
Proof.
  split; [constructor|].
  apply (timer_context_shared quiet_world [LoopRuns 0%nat; LoopRuns 1%nat]).
  constructor.
Defined.

(** C7: whatever the hub does, each event the timer publishes is a
    [time_changed] event whose data has exactly the key [now], or a
    [timer_out_of_sync] event whose data has exactly the key [seconds]. *)
Theorem timer_event_keys (w : World) (acts : list Action) :
  exists w' new,
    run acts w = inr (tt, w') /\
    fired (hass w') = fired (hass w) ++ new /\
    forall e, e ∈ new ->
      (event_type e = EVENT_TIME_CHANGED /\ dom (data e) = {[ ATTR_NOW ]}) \/
      (event_type e = EVENT_TIMER_OUT_OF_SYNC /\ dom (data e) = {[ ATTR_SECONDS ]}).
Proof.
  assert (Hok : handles_ok (fun _ => True) w).
  { unfold handles_ok. apply Forall_forall. auto. }
  destruct (run_ticks _ acts w Hok) as (w' & ticks & E & _ & F & _ & _).
  exists w', (flat_map events_of_tick ticks). split; [exact E|]. split; [exact F|].
  intros e He. apply flat_map_tick_inv in He as (t & _ & He).
  apply tick_events_inv in He as [->|[_ ->]]; [left|right];
    (split; [reflexivity | apply dom_singleton_L]).
Qed.

(** C10: the call of [_async_create_timer] itself registers the one-shot stop
    listener and then schedules the first tick: no event is awaited first.
    From then on, whatever the hub does, [handle] names the handle scheduled
    last and no older handle is left to run, so [stop_timer], and the
    delivery of the stop event, leave no tick to run.  (The hypothesis: the
    loop holds no handle of an earlier timer that is still to run.) *)
Theorem create_timer_schedules_first_tick (w : World) (acts : list Action) (ev : Event) :
  Forall not_pending (scheduled (hass w)) ->
  let ctx := mkContext (uuid_next w) None in
  let first := tick_handle ctx (next_utc w) (next_mono w) in
  exists w0 w1 w2 w3,
    _async_create_timer w = schedule_tick ctx (next_utc w) w0 /\
    listeners (hass w0) = listeners (hass w) ++ [stop_listener] /\
    scheduled (hass w0) = scheduled (hass w) /\
    _async_create_timer w = inr (tt, w1) /\
    listeners (hass w1) = listeners (hass w) ++ [stop_listener] /\
    stop_listener =
      mkListener (key_type EVENT_HOMEASSISTANT_STOP) cb_stop_timer true /\
    l_key stop_listener <> key_type EVENT_HOMEASSISTANT_START /\
    scheduled (hass w1) = scheduled (hass w) ++ [first] /\
    pending first = true /\
    handle w1 = Some (length (scheduled (hass w))) /\
    fired (hass w1) = fired (hass w) /\
    run acts w1 = inr (tt, w2) /\
    handle_is_last w2 /\
    stop_timer ev w2 = inr (tt, w3) /\
    Forall not_pending (scheduled (hass w3)) /\
    (event_type ev = EVENT_HOMEASSISTANT_STOP ->
     exists w4, bus_dispatch ev w2 = inr (tt, w4) /\
                Forall not_pending (scheduled (hass w4))).
Proof.
  intros Hw ctx first.
  set (w1 := mkWorld
               (mkHass (listeners (hass w) ++ [stop_listener]) (fired (hass w))
                       (scheduled (hass w) ++ [first]))
               (Some (length (scheduled (hass w)))) (logged w ++ ["Timer:starting"])
               (utc_clock w) (S (utc_reads w)) (mono_clock w) (S (mono_reads w))
               (N.succ (uuid_next w))).
  assert (E1 : _async_create_timer w = inr (tt, w1)) by apply _async_create_timer_eq.
  assert (Hl1 : handle_is_last w1).
  { exists (scheduled (hass w)), first. auto. }
  assert (Ha1 : stop_armed w1).
  { left. cbn. apply elem_of_app. right. apply list_elem_of_singleton. reflexivity. }
  destruct (run_handle_is_last acts w1 Hl1 Ha1) as (w2 & E2 & Hl2 & Ha2).
  exists (mkWorld
            (mkHass (listeners (hass w) ++ [stop_listener]) (fired (hass w))
                    (scheduled (hass w)))
            None (logged w ++ ["Timer:starting"])
            (utc_clock w) (S (utc_reads w)) (mono_clock w) (mono_reads w)
            (N.succ (uuid_next w))), w1, w2, (cancel_handle w2).
  split; [reflexivity|]. split; [reflexivity|]. split; [reflexivity|].
  split; [exact E1|]. split; [reflexivity|]. split; [reflexivity|].
  split; [discriminate|].
  split; [reflexivity|]. split; [reflexivity|]. split; [reflexivity|].
  split; [reflexivity|]. split; [exact E2|]. split; [exact Hl2|].
  split; [apply stop_timer_eq|].
  split; [apply (handle_is_last_cancel w2 Hl2)|].
  intros Hty. destruct (dispatch_stop_cancels w2 ev Hl2 Ha2 Hty) as (w4 & E4 & _ & H4).
  exists w4. auto.
Qed.

Lemma create_timer_schedules_first_tick_witness :
  Forall not_pending (scheduled (hass quiet_world)) /\
  exists w0 w1 w2 w3,
    _async_create_timer quiet_world
      = schedule_tick (mkContext 0 None) (next_utc quiet_world) w0 /\
    listeners (hass w0) = listeners (hass quiet_world) ++ [stop_listener] /\
    scheduled (hass w0) = scheduled (hass quiet_world) /\
    _async_create_timer quiet_world = inr (tt, w1) /\
    listeners (hass w1) = listeners (hass quiet_world) ++ [stop_listener] /\
    stop_listener =
      mkListener (key_type EVENT_HOMEASSISTANT_STOP) cb_stop_timer true /\
    l_key stop_listener <> key_type EVENT_HOMEASSISTANT_START /\
    scheduled (hass w1) =
      scheduled (hass quiet_world) ++
        [tick_handle (mkContext 0 None) (next_utc quiet_world) (next_mono quiet_world)] /\
    pending (tick_handle (mkContext 0 None) (next_utc quiet_world)
                         (next_mono quiet_world)) = true /\
    handle w1 = Some (length (scheduled (hass quiet_world))) /\
    fired (hass w1) = fired (hass quiet_world) /\
    run [LoopRuns 0%nat; LoopRuns 1%nat] w1 = inr (tt, w2) /\
    handle_is_last w2 /\
    stop_timer hub_stop_event w2 = inr (tt, w3) /\
    Forall not_pending (scheduled (hass w3)) /\
    (event_type hub_stop_event = EVENT_HOMEASSISTANT_STOP ->
     exists w4,
       bus_dispatch hub_stop_event w2 = inr (tt, w4) /\
       Forall not_pending (scheduled (hass w4))).
Proof.
  split; [constructor|].
  apply (create_timer_schedules_first_tick quiet_world
           [LoopRuns 0%nat; LoopRuns 1%nat] hub_stop_event).
  constructor.
Defined.

(** * Further properties *)

(** ** The trace of a timer *)

Lemma ticks_of_S ctx w0 k :
  ticks_of ctx w0 (S k) = ticks_of ctx w0 k ++ [nth_tick ctx w0 k].
Proof. unfold ticks_of. rewrite seq_S, map_app. reflexivity. Qed.

Lemma same_call_set_done h h' : same_call h h' -> same_call (set_done h) h'.
Proof. intros H. exact H. Qed.

Lemma same_call_set_cancelled h h' : same_call h h' -> same_call (set_cancelled h) h'.
Proof. intros H. exact H. Qed.

Lemma timer_after_created w w1 :
  _async_create_timer w = inr (tt, w1) ->
  timer_after (mkContext (uuid_next w) None) w 0 w1.
Proof.
  rewrite _async_create_timer_eq. intros E. injection E as <-.
  constructor; cbn -[tick_handle]; try reflexivity.
  - f_equal. lia.
  - f_equal. lia.
  - rewrite app_nil_r. reflexivity.
  - exists [], (tick_handle (mkContext (uuid_next w) None) (next_utc w) (next_mono w)).
    rewrite app_nil_r. split; [reflexivity|]. split; [reflexivity|].
    split; [constructor|]. split; [|reflexivity].
    unfold same_call, sched_handle, next_utc, next_mono. cbn.
    rewrite !Nat.add_0_r. auto.
Qed.

Lemma timer_after_last ctx w0 k w :
  Forall not_pending (scheduled (hass w0)) ->
  timer_after ctx w0 k w -> handle_is_last w.
Proof.
  intros H0 [_ _ _ _ _ _ _ (olds & th & Hs & Hh & Holds & _ & _)].
  exists (scheduled (hass w0) ++ olds), th.
  split; [rewrite Hs; apply app_assoc|]. split; [exact Hh|].
  apply Forall_app. split; [exact H0|].
  clear -Holds. induction Holds as [|j h js hs [_ Hd] _ IH]; constructor; [|exact IH].
  unfold not_pending, pending. rewrite Hd. apply andb_false_r.
Qed.

Lemma timer_after_listeners ctx w0 k w ls :
  timer_after ctx w0 k w ->
  timer_after ctx w0 k (with_hass (with_listeners ls) w).
Proof. intros [? ? ? ? ? ? ? ?]. constructor; assumption. Qed.

Lemma timer_after_cancel ctx w0 k w :
  timer_after ctx w0 k w -> timer_after ctx w0 k (cancel_handle w).
Proof.
  intros [H1 H2 H3 H4 H5 H6 H7 (olds & th & Hs & Hh & Holds & Hc & Hd)].
  unfold cancel_handle. rewrite Hh.
  constructor; cbn [hass fired scheduled handle logged utc_clock utc_reads mono_clock
                    mono_reads uuid_next with_hass with_scheduled]; try assumption.
  exists olds, (set_cancelled th).
  split.
  - rewrite Hs, app_assoc, alter_last, <- app_assoc. reflexivity.
  - split; [exact Hh|]. split; [exact Holds|]. split; [exact Hc | exact Hd].
Qed.

Lemma step_timer_after ctx w0 k a w :
  Forall not_pending (scheduled (hass w0)) ->
  timer_after ctx w0 k w ->
  exists w' k',
    step a w = inr (tt, w') /\
    timer_after ctx w0 k' w' /\
    (k' = k \/ (k' = S k /\ is_loop_run a = true)).
Proof.
  intros H0 Hta. destruct a as [i|ev]; cbn [step].
  - rewrite loop_run_handle_eq.
    destruct (scheduled (hass w) !! i) as [t|] eqn:Hi; [|exists w, k; auto].
    destruct (pending t) eqn:Hp; [|exists w, k; auto].
    pose proof (timer_after_last ctx w0 k w H0 Hta) as Hl.
    destruct (pending_is_last w i t Hl Hi Hp) as (ts & Hs' & -> & _).
    destruct Hta as [H1 H2 H3 H4 H5 H6 H7 (olds & th & Hs & Hh & Holds & Hc & Hd)].
    assert (Hts : ts = scheduled (hass w0) ++ olds /\ t = th).
    { rewrite Hs, app_assoc in Hs'. apply app_inj_tail in Hs' as [? ?]. auto. }
    destruct Hts as [-> ->]. destruct Hc as (Hc1 & Hc2 & Hc3).
    assert (Hctx : cb_context (th_callback th) = ctx) by (rewrite Hc2; reflexivity).
    rewrite fire_time_event_eq, Hctx.
    eexists _, (S k). split; [reflexivity|]. split; [|right; auto].
    assert (Hnow : next_utc (mark_done (length (scheduled (hass w0) ++ olds)) w)
                   = utc_clock w0 (utc_reads w0 + S k)).
    { unfold next_utc. cbn. rewrite H1, H3. reflexivity. }
    assert (Hlate : lateness (mark_done (length (scheduled (hass w0) ++ olds)) w)
                             (th_args th)
                    = tick_late (nth_tick ctx w0 k)).
    { unfold lateness, next_mono. cbn -[sched_handle]. rewrite H2, H4, Hc3. reflexivity. }
    assert (Hm2 : next_mono2 (mark_done (length (scheduled (hass w0) ++ olds)) w)
                  = mono_clock w0 (mono_reads w0 + 2 * S k)).
    { unfold next_mono2. cbn. rewrite H2, H4. f_equal. lia. }
    rewrite Hnow, Hlate, Hm2.
    constructor;
      cbn [hass fired scheduled handle logged utc_clock utc_reads mono_clock
           mono_reads uuid_next mark_done with_hass with_scheduled].
    + exact H1.
    + exact H2.
    + rewrite H3. lia.
    + rewrite H4. lia.
    + exact H5.
    + exact H6.
    + rewrite H7, ticks_of_S, flat_map_app, <- app_assoc. cbn [flat_map].
      rewrite app_nil_r. reflexivity.
    + exists (olds ++ [set_done th]), (sched_handle ctx w0 (S k)).
      split.
      * rewrite Hs, app_assoc, alter_last, <- !app_assoc. reflexivity.
      * split.
        -- f_equal. rewrite length_alter, Hs, !length_app. cbn. lia.
        -- split.
           ++ rewrite seq_S. apply Forall2_app; [exact Holds|].
              constructor; [|constructor]. split; [|reflexivity].
              unfold same_call. auto.
           ++ split; [|reflexivity]. unfold same_call. auto.
  - rewrite bus_dispatch_eq. cbn zeta.
    eexists _, k. split; [reflexivity|]. split; [|left; reflexivity].
    destruct (_ ++ _).
    + apply timer_after_listeners. exact Hta.
    + apply timer_after_cancel, timer_after_listeners. exact Hta.
Qed.

Lemma run_timer_after ctx w0 acts : forall k w,
  Forall not_pending (scheduled (hass w0)) ->
  timer_after ctx w0 k w ->
  exists w' n,
    run acts w = inr (tt, w') /\
    timer_after ctx w0 (k + n) w' /\
    (n <= length (List.filter is_loop_run acts))%nat.
Proof.
  induction acts as [|a acts IH]; intros k w H0 Hta.
  - exists w, 0%nat. rewrite Nat.add_0_r. cbn. auto.
  - destruct (step_timer_after ctx w0 k a w H0 Hta) as (w1 & k1 & E1 & Hta1 & Hk).
    destruct (IH k1 w1 H0 Hta1) as (w2 & n & E2 & Hta2 & Hn).
    cbn [run]. unfold mbind, M_bind. rewrite E1.
    destruct Hk as [->|[-> Ha]].
    + exists w2, n. split; [exact E2|]. split; [exact Hta2|].
      cbn [List.filter]. destruct (is_loop_run a); cbn [length]; lia.
    + exists w2, (S n). split; [exact E2|].
      split; [replace (k + S n)%nat with (S k + n)%nat by lia; exact Hta2|].
      cbn [List.filter]. rewrite Ha. cbn [length]. lia.
Qed.

Lemma filter_time_changed_ticks (ticks : list Tick) :
  List.filter is_time_changed (flat_map events_of_tick ticks)
  = map (fun t => time_changed_event (tick_context t) (tick_now t)) ticks.
Proof.
  induction ticks as [|t ticks IH]; [reflexivity|].
  cbn [flat_map map]. rewrite List.filter_app, IH.
  unfold events_of_tick. rewrite tick_events_time_changed. reflexivity.
Qed.





(** *** Counting the wake-ups *)

Lemma step_utc_reads a w w' :
  step a w = inr (tt, w') ->
  utc_reads w' = (utc_reads w + if wakes a w then 1 else 0)%nat.
Proof.
  destruct a as [i|ev]; cbn [step wakes].
  - rewrite loop_run_handle_eq.
    destruct (scheduled (hass w) !! i) as [t|]; [|intros E; injection E as <-; lia].
    destruct (pending t); [|intros E; injection E as <-; lia].
    rewrite fire_time_event_eq. intros E. injection E as <-.
    cbn [utc_reads mark_done with_hass]. lia.
  - rewrite bus_dispatch_eq. cbn zeta. intros E. injection E as <-.
    destruct (_ ++ _); unfold cancel_handle; cbn [handle utc_reads with_hass];
      try destruct (handle w); cbn [utc_reads with_hass]; lia.
Qed.

Lemma step_timer_after_wakes ctx w0 k a w :
  Forall not_pending (scheduled (hass w0)) ->
  timer_after ctx w0 k w ->
  exists w',
    step a w = inr (tt, w') /\
    timer_after ctx w0 (k + if wakes a w then 1 else 0) w'.
Proof.
  intros H0 Hta.
  destruct (step_timer_after ctx w0 k a w H0 Hta) as (w' & k' & E & Hta' & _).
  exists w'. split; [exact E|].
  pose proof (step_utc_reads a w w' E) as Hu.
  rewrite (ta_utc_reads _ _ _ _ Hta'), (ta_utc_reads _ _ _ _ Hta) in Hu.
  assert (Ek : k' = (k + if wakes a w then 1 else 0)%nat)
    by (destruct (wakes a w); lia).
  rewrite <- Ek. exact Hta'.
Qed.

Lemma run_timer_after_wakeups ctx w0 acts : forall k w,
  Forall not_pending (scheduled (hass w0)) ->
  timer_after ctx w0 k w ->
  exists w',
    run acts w = inr (tt, w') /\
    timer_after ctx w0 (k + wakeups acts w) w'.
Proof.
  induction acts as [|a acts IH]; intros k w H0 Hta.
  - exists w. cbn [wakeups]. rewrite Nat.add_0_r. split; [reflexivity | exact Hta].
  - destruct (step_timer_after_wakes ctx w0 k a w H0 Hta) as (w1 & E1 & Hta1).
    destruct (IH _ w1 H0 Hta1) as (w2 & E2 & Hta2).
    exists w2. cbn [run wakeups]. unfold mbind, M_bind. rewrite E1.
    split; [exact E2|]. rewrite Nat.add_assoc. exact Hta2.
Qed.

Lemma timer_after_ran ctx w0 k w :
  timer_after ctx w0 k w -> length (ran_since w0 w) = k.
Proof.
  intros [_ _ _ _ _ _ _ (olds & th & Hs & _ & Holds & _ & Hd)].
  unfold ran_since. rewrite Hs, drop_app_length, List.filter_app.
  cbn [List.filter]. rewrite Hd, app_nil_r.
  assert (Hf : List.filter th_done olds = olds).
  { clear -Holds. induction Holds as [|j h js hs [_ Hd] _ IH]; [reflexivity|].
    cbn [List.filter]. rewrite Hd, IH. reflexivity. }
  rewrite Hf, <- (Forall2_length _ _ _ Holds), length_seq. reflexivity.
Qed.

(** X2: the [time_changed] events of a timer carry, in order, the successive
    readings of the wall clock that follow the one made at creation: one
    event per wake-up that ran, none repeated, none skipped.  The wake-ups
    that ran are counted along the run ([wakeups]: the steps at which the loop
    reached a handle still to run) and in the final world ([ran_since]: the
    handles scheduled since creation that the loop has marked as run). *)
Theorem time_changed_in_clock_order (w : World) (acts : list Action) :
  Forall not_pending (scheduled (hass w)) ->
  exists w1 w2 new n,
    _async_create_timer w = inr (tt, w1) /\
    run acts w1 = inr (tt, w2) /\
    fired (hass w2) = fired (hass w) ++ new /\
    wakeups acts w1 = n /\
    length (ran_since w w2) = n /\
    length (List.filter is_time_changed new) = n /\
    map time_fired (List.filter is_time_changed new)
      = map (fun k => utc_clock w (utc_reads w + S k)) (seq 0 n) /\
    map (fun e => data e !! ATTR_NOW) (List.filter is_time_changed new)
      = map (fun k => Some (VDate (utc_clock w (utc_reads w + S k)))) (seq 0 n).
Proof.
  intros H0.
  pose proof (timer_after_created w _ (_async_create_timer_eq w)) as Hta.
  destruct (run_timer_after_wakeups _ w acts 0 _ H0 Hta) as (w2 & E & Hta2).
  rewrite Nat.add_0_l in Hta2.
  eexists _, w2, _, _. split; [apply _async_create_timer_eq|]. split; [exact E|].
  split; [apply (ta_fired _ _ _ _ Hta2)|]. split; [reflexivity|].
  split; [apply (timer_after_ran _ _ _ _ Hta2)|].
  rewrite filter_time_changed_ticks. unfold ticks_of.
  rewrite !length_map, length_seq. split; [reflexivity|].
  rewrite <- !list_fmap_compose. split; apply list_fmap_ext; intros i j _;
    cbn; try apply lookup_singleton_eq; reflexivity.
Qed.

Lemma time_changed_in_clock_order_witness :
  Forall not_pending (scheduled (hass quiet_world)) /\
  exists w1 w2 new n,
    _async_create_timer quiet_world = inr (tt, w1) /\
    run [LoopRuns 0%nat; LoopRuns 0%nat; BusDelivers hub_stop_event; LoopRuns 1%nat] w1
      = inr (tt, w2) /\
    fired (hass w2) = fired (hass quiet_world) ++ new /\
    wakeups [LoopRuns 0%nat; LoopRuns 0%nat; BusDelivers hub_stop_event; LoopRuns 1%nat] w1
      = n /\
    length (ran_since quiet_world w2) = n /\
    length (List.filter is_time_changed new) = n /\
    map time_fired (List.filter is_time_changed new)
      = map (fun k => utc_clock quiet_world (utc_reads quiet_world + S k)) (seq 0 n) /\
    map (fun e => data e !! ATTR_NOW) (List.filter is_time_changed new)
      = map (fun k => Some (VDate (utc_clock quiet_world (utc_reads quiet_world + S k))))
            (seq 0 n).
Proof.
  split; [constructor|].
  apply (time_changed_in_clock_order quiet_world
           [LoopRuns 0%nat; LoopRuns 0%nat; BusDelivers hub_stop_event; LoopRuns 1%nat]).
  constructor.
Defined.



(** X4: as long as the wall clock returns well-formed times, every handle the
    timer ever creates has a delay above 0 and at most 1, and a target that
    is a reading of the monotonic clock plus that delay. *)
Theorem timer_delays_in_range (w : World) (acts : list Action) :
  Forall not_pending (scheduled (hass w)) ->
  (forall j, valid_Date (utc_clock w j)) ->
  exists w1 w2,
    _async_create_timer w = inr (tt, w1) /\
    run acts w1 = inr (tt, w2) /\
    Forall (fun h =>
              (0 <? th_delay h)%float = true /\
              (th_delay h <=? 1)%float = true /\
              exists j, th_args h = (mono_clock w j + th_delay h)%float)
           (drop (length (scheduled (hass w))) (scheduled (hass w2))).
Proof.
  intros H0 Hv.
  pose proof (timer_after_created w _ (_async_create_timer_eq w)) as Hta.
  destruct (run_timer_after _ w acts 0 _ H0 Hta) as (w2 & n & E & Hta2 & _).
  destruct Hta2 as [_ _ _ _ _ _ _ (olds & th & Hs & _ & Holds & Hc & _)].
  eexists _, w2. split; [apply _async_create_timer_eq|]. split; [exact E|].
  rewrite Hs, drop_app_length.
  assert (Hone : forall h j,
             same_call h (sched_handle (mkContext (uuid_next w) None) w j) ->
             (0 <? th_delay h)%float = true /\
             (th_delay h <=? 1)%float = true /\
             exists i, th_args h = (mono_clock w i + th_delay h)%float).
  { intros h j (Hd & _ & Ha). rewrite Hd. cbn [sched_handle tick_handle th_delay].
    destruct (slp_seconds_checked _ (Hv (utc_reads w + j)%nat)) as (Hp & Hl & _).
    split; [exact Hp|]. split; [exact Hl|].
    exists (mono_reads w + 2 * j)%nat. rewrite Ha. reflexivity. }
  apply Forall_app. split.
  - clear -Holds Hone. revert Holds. generalize (seq 0 (0 + n)). intros js Holds.
    induction Holds as [|j h js hs [Hh _] _ IH]; constructor; [|exact IH].
    exact (Hone h j Hh).
  - constructor; [|constructor]. exact (Hone th _ Hc).
Qed.

Lemma timer_delays_in_range_witness :
  Forall not_pending (scheduled (hass quiet_world)) /\
  (forall j, valid_Date (utc_clock quiet_world j)) /\
  exists w1 w2,
    _async_create_timer quiet_world = inr (tt, w1) /\
    run [LoopRuns 0%nat; LoopRuns 1%nat] w1 = inr (tt, w2) /\
    Forall (fun h =>
              (0 <? th_delay h)%float = true /\
              (th_delay h <=? 1)%float = true /\
              exists j, th_args h = (mono_clock quiet_world j + th_delay h)%float)
           (drop (length (scheduled (hass quiet_world))) (scheduled (hass w2))).
Proof.
  split; [constructor|].
  split; [intros j; unfold valid_Date; simpl; lia|].
  apply (timer_delays_in_range quiet_world [LoopRuns 0%nat; LoopRuns 1%nat]).
  - constructor.
  - intros j; unfold valid_Date; simpl; lia.
Defined.

(** ** After the stop *)

Lemma step_stopped a w :
  Forall not_pending (scheduled (hass w)) ->
  exists w',
    step a w = inr (tt, w') /\
    Forall not_pending (scheduled (hass w')) /\
    fired (hass w') = fired (hass w) /\
    length (scheduled (hass w')) = length (scheduled (hass w)) /\
    utc_reads w' = utc_reads w /\
    mono_reads w' = mono_reads w.
Proof.
  intros Hn. destruct a as [i|ev]; cbn [step].
  - rewrite loop_run_handle_eq.
    destruct (scheduled (hass w) !! i) as [t|] eqn:Hi; [|exists w; auto 10].
    rewrite Forall_lookup in Hn. rewrite (Hn i t Hi). exists w.
    rewrite Forall_lookup. auto 10.
  - rewrite bus_dispatch_eq. cbn zeta. eexists. split; [reflexivity|].
    destruct (_ ++ _); [auto 10|].
    unfold cancel_handle. cbn [handle with_hass].
    destruct (handle w) as [i|]; [|auto 10].
    cbn [hass scheduled fired utc_reads mono_reads with_hass with_scheduled with_listeners].
    rewrite length_alter. split; [|auto].
    apply Forall_alter; [exact Hn|]. intros; apply not_pending_set_cancelled.
Qed.

Lemma run_stopped acts : forall w,
  Forall not_pending (scheduled (hass w)) ->
  exists w',
    run acts w = inr (tt, w') /\
    Forall not_pending (scheduled (hass w')) /\
    fired (hass w') = fired (hass w) /\
    length (scheduled (hass w')) = length (scheduled (hass w)) /\
    utc_reads w' = utc_reads w /\
    mono_reads w' = mono_reads w.
Proof.
  induction acts as [|a acts IH]; intros w Hn; [exists w; auto 10|].
  destruct (step_stopped a w Hn) as (w1 & E1 & Hn1 & F1 & L1 & U1 & M1).
  destruct (IH w1 Hn1) as (w2 & E2 & Hn2 & F2 & L2 & U2 & M2).
  exists w2. cbn [run]. unfold mbind, M_bind. rewrite E1.
  split; [exact E2|]. split; [exact Hn2|]. repeat split; congruence.
Qed.

(** X5: a stopped timer stays stopped.  Once [stop_timer] has run, whatever
    the hub does next, the timer publishes no event, schedules no handle and
    reads no clock. *)
Theorem stopped_timer_is_silent (w : World) (acts1 acts2 : list Action) (ev : Event) :
  Forall not_pending (scheduled (hass w)) ->
  exists w1 w2 w3 w4,
    _async_create_timer w = inr (tt, w1) /\
    run acts1 w1 = inr (tt, w2) /\
    stop_timer ev w2 = inr (tt, w3) /\
    run acts2 w3 = inr (tt, w4) /\
    fired (hass w4) = fired (hass w2) /\
    length (scheduled (hass w4)) = length (scheduled (hass w2)) /\
    Forall not_pending (scheduled (hass w4)) /\
    utc_reads w4 = utc_reads w2 /\
    mono_reads w4 = mono_reads w2.
Proof.
  intros H0.
  pose proof (timer_after_created w _ (_async_create_timer_eq w)) as Hta.
  destruct (run_timer_after _ w acts1 0 _ H0 Hta) as (w2 & n & E & Hta2 & _).
  pose proof (timer_after_last _ _ _ _ H0 Hta2) as Hl.
  destruct (handle_is_last_cancel w2 Hl) as [_ Hn].
  destruct (run_stopped acts2 _ Hn) as (w4 & E4 & Hn4 & F4 & L4 & U4 & M4).
  eexists _, w2, (cancel_handle w2), w4.
  split; [apply _async_create_timer_eq|]. split; [exact E|].
  split; [apply stop_timer_eq|]. split; [exact E4|].
  split; [rewrite F4; unfold cancel_handle; destruct (handle w2); reflexivity|].
  split; [rewrite L4; unfold cancel_handle; destruct (handle w2);
          [apply length_alter | reflexivity]|].
  split; [exact Hn4|].
  split; [rewrite U4 | rewrite M4]; unfold cancel_handle; destruct (handle w2); reflexivity.
Qed.

Lemma stopped_timer_is_silent_witness :
  Forall not_pending (scheduled (hass quiet_world)) /\
  exists w1 w2 w3 w4,
    _async_create_timer quiet_world = inr (tt, w1) /\
    run [LoopRuns 0%nat] w1 = inr (tt, w2) /\
    stop_timer hub_stop_event w2 = inr (tt, w3) /\
    run [LoopRuns 1%nat; BusDelivers hub_stop_event; LoopRuns 1%nat] w3 = inr (tt, w4) /\
    fired (hass w4) = fired (hass w2) /\
    length (scheduled (hass w4)) = length (scheduled (hass w2)) /\
    Forall not_pending (scheduled (hass w4)) /\
    utc_reads w4 = utc_reads w2 /\
    mono_reads w4 = mono_reads w2.
Proof.
  split; [constructor|].
  apply (stopped_timer_is_silent quiet_world [LoopRuns 0%nat]
           [LoopRuns 1%nat; BusDelivers hub_stop_event; LoopRuns 1%nat] hub_stop_event).
  constructor.
Defined.

(** X7: stopping twice is stopping once, and stopping never raises: any
    number of calls of [stop_timer] in a row returns, and leaves the world
    the first call leaves; a further call in that world changes nothing. *)
Theorem stop_timer_idempotent (e : Event) (es : list Event) (w : World) :
  exists w',
    stop_timer e w = inr (tt, w') /\
    for_each stop_timer (e :: es) w = inr (tt, w') /\
    for_each stop_timer (e :: es) w = stop_timer e w /\
    (forall e', stop_timer e' w' = inr (tt, w')) /\
    (forall es1 es2, es = es1 ++ es2 ->
       for_each stop_timer (e :: es1) w = inr (tt, w')).
Proof.
  assert (Hall : forall l w1, cancel_handle w1 = w1 ->
                   for_each stop_timer l w1 = inr (tt, w1)).
  { induction l as [|e' l IH]; intros w1 Hw1; [reflexivity|].
    cbn [for_each]. unfold mbind, M_bind. rewrite stop_timer_eq, Hw1.
    apply IH. exact Hw1. }
  assert (Hone : forall l, for_each stop_timer (e :: l) w = inr (tt, cancel_handle w)).
  { intros l. cbn [for_each]. unfold mbind, M_bind. rewrite stop_timer_eq.
    apply Hall, cancel_handle_idem. }
  exists (cancel_handle w). split; [apply stop_timer_eq|].
  split; [apply Hone|]. split; [rewrite stop_timer_eq; apply Hone|].
  split; [intros e'; rewrite stop_timer_eq, cancel_handle_idem; reflexivity|].
  intros es1 es2 _. apply Hone.
Qed.

(** ** The threshold of one second *)

Lemma SFleb_one_not_above (sf : spec_float) :
  SFleb sf (S754_finite false 4503599627370496 (-52)) = true ->
  SFltb (S754_finite false 4503599627370496 (-52)) sf = false.
Proof.
  unfold SFleb, SFltb, SFcompare.
  destruct sf as [s|s| |s m e];
    [reflexivity | destruct s; [reflexivity|discriminate] | discriminate |].
  destruct s; [reflexivity|].
  rewrite (Z.compare_antisym e (-52)).
  destruct (Z.compare e (-52)); cbn [CompOpp]; [|reflexivity|discriminate].
  generalize 4503599627370496%positive. intros p.
  pose proof (Pos.compare_antisym m p) as Ha. unfold Pos.compare in Ha.
  rewrite Ha. destruct (Pos.compare_cont Eq m p); cbn [CompOpp];
    try discriminate; reflexivity.
Qed.

Lemma at_most_one_not_above (x : float) :
  (x <=? 1)%float = true -> (1 <? x)%float = false.
Proof.
  rewrite FloatAxioms.leb_spec, FloatAxioms.ltb_spec.
  change (Prim2SF 1) with (S754_finite false 4503599627370496 (-52)).
  apply SFleb_one_not_above.
Qed.

Lemma nan_not_above (x : float) :
  PrimFloat.is_nan x = true -> (1 <? x)%float = false.
Proof.
  intros H. rewrite FloatAxioms.ltb_spec. unfold Prim2SF at 2. rewrite H.
  change (Prim2SF 1) with (S754_finite false 4503599627370496 (-52)).
  reflexivity.
Qed.

(** X6: the threshold is strict, and a lateness that is not a number is not
    reported: when the measured lateness compares at most 1, a tick exactly
    one second late included, or is NaN, the wake-up publishes the
    [time_changed] event alone. *)
Theorem fire_time_event_within_a_second (ctx : Context) (target : float) (w : World) :
  (lateness w target <=? 1)%float = true \/
  PrimFloat.is_nan (lateness w target) = true ->
  exists w',
    fire_time_event ctx target w = inr (tt, w') /\
    fired (hass w') = fired (hass w) ++ [time_changed_event ctx (next_utc w)].
Proof.
  intros H. eexists. split; [apply fire_time_event_eq|].
  cbn [hass fired]. unfold tick_events.
  assert (E : (1 <? lateness w target)%float = false).
  { destruct H as [H|H]; [apply at_most_one_not_above | apply nan_not_above]; exact H. }
  rewrite E. reflexivity.
Qed.

Lemma fire_time_event_within_a_second_witness :
  ((lateness quiet_world on_the_second_target <=? 1)%float = true \/
   PrimFloat.is_nan (lateness quiet_world on_the_second_target) = true) /\
  exists w',
    fire_time_event (mkContext 0 None) on_the_second_target quiet_world = inr (tt, w') /\
    fired (hass w') =
      fired (hass quiet_world) ++
        [time_changed_event (mkContext 0 None) (next_utc quiet_world)].
Proof.
  split; [left; reflexivity|].
  apply (fire_time_event_within_a_second (mkContext 0 None) on_the_second_target
           quiet_world).
  left. reflexivity.
Defined.

(** ** The delay as a function of the offset *)

(** X8: a later offset within the second gives a strictly shorter delay: the
    numbers the delays stand for are ordered as the offsets are, so two
    different offsets never give the same float. *)
Theorem slp_seconds_decreasing (now1 now2 : Date) :
  valid_Date now1 -> valid_Date now2 ->
  microsecond now1 < microsecond now2 ->
  exists v1 v2,
    float_value (slp_seconds now1) = Some v1 /\
    float_value (slp_seconds now2) = Some v2 /\
    (v2 < v1)%Q /\
    slp_seconds now1 <> slp_seconds now2.
Proof.
  intros H1 H2 Hlt.
  destruct (delay_value now1 H1) as (v1 & E1 & L1 & U1).
  destruct (delay_value now2 H2) as (v2 & E2 & L2 & U2).
  assert (Hstep : ((microsecond now1 # 1000000) + (1 # 1000000)
                   <= microsecond now2 # 1000000)%Q).
  { unfold Qle, Qplus. cbn [Qnum Qden]. lia. }
  assert (Hv : (v2 < v1)%Q) by lra.
  exists v1, v2. split; [exact E1|]. split; [exact E2|]. split; [exact Hv|].
  intros E. rewrite E in E1. rewrite E1 in E2. injection E2 as E2.
  rewrite E2 in Hv. exact (Qlt_irrefl v2 Hv).
Qed.

Lemma slp_seconds_decreasing_witness :
  valid_Date (mkDate 1546225445 333333) /\
  valid_Date (mkDate 1546225445 333334) /\
  microsecond (mkDate 1546225445 333333) < microsecond (mkDate 1546225445 333334) /\
  exists v1 v2,
    float_value (slp_seconds (mkDate 1546225445 333333)) = Some v1 /\
    float_value (slp_seconds (mkDate 1546225445 333334)) = Some v2 /\
    (v2 < v1)%Q /\
    slp_seconds (mkDate 1546225445 333333) <> slp_seconds (mkDate 1546225445 333334).
Proof.
  split; [unfold valid_Date; simpl; lia|].
  split; [unfold valid_Date; simpl; lia|].
  split; [simpl; lia|].
  apply (slp_seconds_decreasing (mkDate 1546225445 333333) (mkDate 1546225445 333334));
    unfold valid_Date; simpl; lia.
Defined.

(** X9: the delay is a whole second only at offset 0.  At any other offset
    it stands for a number below 1, and it is never shorter than 0.999999
    microsecond: the shortest sleep, at offset 999999, is about a
    microsecond. *)
Theorem slp_seconds_floor (now : Date) :
  valid_Date now ->
  exists v,
    float_value (slp_seconds now) = Some v /\
    (999999 # 1000000000000 <= v)%Q /\
    (0 < microsecond now -> (v < 1)%Q /\ slp_seconds now <> 1%float) /\
    (microsecond now = 0 -> (v == 1)%Q).
Proof.
  intros Hv. destruct (delay_value now Hv) as (v & Ev & L & U).
  destruct (offset_bounds now Hv) as (B0 & B1 & B2).
  exists v. split; [exact Ev|]. split; [lra|]. split.
  - intros Hm. specialize (B2 Hm). assert (Hlt : (v < 1)%Q) by lra.
    split; [exact Hlt|]. intros E. rewrite E in Ev.
    change (float_value 1) with (Some (4503599627370496 # 4503599627370496)) in Ev.
    injection Ev as Ev. rewrite <- Ev in Hlt. revert Hlt. unfold Qlt. cbn. lia.
  - intros Hm. assert (E : slp_seconds now = 1%float).
    { unfold slp_seconds. rewrite Hm. reflexivity. }
    rewrite E in Ev.
    change (float_value 1) with (Some (4503599627370496 # 4503599627370496)) in Ev.
    injection Ev as Ev. rewrite <- Ev. reflexivity.
Qed.

Lemma slp_seconds_floor_witness :
  valid_Date (mkDate 1546225445 999999) /\
  exists v,
    float_value (slp_seconds (mkDate 1546225445 999999)) = Some v /\
    (999999 # 1000000000000 <= v)%Q /\
    (0 < microsecond (mkDate 1546225445 999999) ->
     (v < 1)%Q /\ slp_seconds (mkDate 1546225445 999999) <> 1%float) /\
    (microsecond (mkDate 1546225445 999999) = 0 -> (v == 1)%Q).
Proof.
  split; [unfold valid_Date; simpl; lia|].
  apply (slp_seconds_floor (mkDate 1546225445 999999)).
  unfold valid_Date; simpl; lia.
Defined.

(** ** What an out-of-sync event says *)

(** X10: whatever the hub does, a [timer_out_of_sync] event never reports a
    lateness of a second or less: its [seconds] is a float that compares
    above 1, so it is not NaN and does not compare at most 1. *)
Theorem out_of_sync_seconds_above_one (w : World) (acts : list Action) :
  exists w' new,
    run acts w = inr (tt, w') /\
    fired (hass w') = fired (hass w) ++ new /\
    forall e, e ∈ new -> event_type e = EVENT_TIMER_OUT_OF_SYNC ->
      exists late,
        data e !! ATTR_SECONDS = Some (VFloat late) /\
        (1 <? late)%float = true /\
        (late <=? 1)%float = false /\
        PrimFloat.is_nan late = false.
Proof.
  assert (Hok : handles_ok (fun _ => True) w).
  { unfold handles_ok. apply Forall_forall. auto. }
  destruct (run_ticks _ acts w Hok) as (w' & ticks & E & _ & F & _ & _).
  exists w', (flat_map events_of_tick ticks). split; [exact E|]. split; [exact F|].
  intros e He Hty. apply flat_map_tick_inv in He as (t & _ & He).
  apply tick_events_inv in He as [->|[Hlate ->]]; [discriminate Hty|].
  exists (tick_late t). split; [apply lookup_singleton_eq|]. split; [exact Hlate|].
  split.
  - destruct (tick_late t <=? 1)%float eqn:Hle; [|reflexivity].
    rewrite (at_most_one_not_above _ Hle) in Hlate. discriminate.
  - destruct (PrimFloat.is_nan (tick_late t)) eqn:Hn; [|reflexivity].
    rewrite (nan_not_above _ Hn) in Hlate. discriminate.
Qed.
